(** * snapsequence: sequential renaming of the photos of a folder

    A shallow embedding of [rename_photos.py] and the properties of its
    discovery, plan generation and two-phase renaming.

    Conventions of the embedding.
    - Text is [string]: a sequence of 8-bit characters.  [str.lower] and
      [str.strip] are modelled on ASCII text.
    - A path is the list of its components, none of which is empty, as
      [pathlib] keeps them; the empty list is [Path('.')].
    - The file system is a finite map from paths to nodes.  The platform
      ([os.name], the directory enumeration order, the local time zone,
      the reasons for which the operating system refuses to examine an
      entry or to rename one) is an interface, [Platform].
    - The folder given to [main] is taken to be reachable: [exists] and
      [is_dir] on it read the map.  What the operating system may refuse
      is [stat] on the entries found inside it.
    - Functions that print, read the console or rename files run in a
      state and exception monad over [World]. *)

From Stdlib Require Import Ascii String ZArith Lia.
From stdpp Require Import base option list gmap strings sorting.

Open Scope string_scope.
Open Scope list_scope.
Open Scope nat_scope.

(* ===================================================================== *)
(** * Text *)
(* ===================================================================== *)

Module Text.

(** [str.lower] on ASCII text. *)
Definition lower_char (c : ascii) : ascii :=
  let n := nat_of_ascii c in
  if (65 <=? n) && (n <=? 90) then ascii_of_nat (n + 32) else c.

Fixpoint lower (s : string) : string :=
  match s with
  | EmptyString => EmptyString
  | String c r => String (lower_char c) (lower r)
  end.

(** [str.isspace] on ASCII characters. *)
Definition is_space (c : ascii) : bool :=
  let n := nat_of_ascii c in
  ((9 <=? n) && (n <=? 13)) || ((28 <=? n) && (n <=? 32)).

Fixpoint lstrip (s : string) : string :=
  match s with
  | EmptyString => EmptyString
  | String c r => if is_space c then lstrip r else s
  end.

Fixpoint rstrip (s : string) : string :=
  match s with
  | EmptyString => EmptyString
  | String c r =>
      match rstrip r with
      | EmptyString => if is_space c then EmptyString else String c EmptyString
      | r' => String c r'
      end
  end.

(** [str.strip()] *)
Definition strip (s : string) : string := rstrip (lstrip s).

(** ["sep".join(parts)] *)
Fixpoint join (sep : string) (parts : list string) : string :=
  match parts with
  | [] => ""
  | [x] => x
  | x :: rest => x +:+ sep +:+ join sep rest
  end.

(** ["c" * n] *)
Fixpoint times (c : string) (n : nat) : string :=
  match n with
  | 0 => ""
  | S k => c +:+ times c k
  end.

Definition is_digit (c : ascii) : bool :=
  let n := nat_of_ascii c in (48 <=? n) && (n <=? 57).

Definition digit (d : nat) : ascii := ascii_of_nat (48 + d).

(** Decimal digits of [n], most significant first, in front of [acc]. *)
Fixpoint str_digits (fuel n : nat) (acc : string) : string :=
  match fuel with
  | 0 => acc
  | S fuel' =>
      let acc' := String (digit (n mod 10)) acc in
      if n <? 10 then acc' else str_digits fuel' (n / 10) acc'
  end.

(** [str(n)] for a natural number. *)
Definition str_of_nat (n : nat) : string := str_digits (S n) n "".

(** [f"{i:02d}"]: the decimal digits, filled with zeros on the left up
    to the width 2. *)
Definition format_02d (i : nat) : string :=
  let s := str_of_nat i in
  times "0" (2 - String.length s) +:+ s.

(** [int(s)] for a string of decimal digits. *)
Fixpoint int_digits (s : string) (acc : nat) : option nat :=
  match s with
  | EmptyString => Some acc
  | String c r =>
      if is_digit c then int_digits r (10 * acc + (nat_of_ascii c - 48))
      else None
  end.

Definition int_of_string (s : string) : option nat :=
  match s with
  | EmptyString => None
  | _ => int_digits s 0
  end.

(** The part of [s] that starts at its last dot, when it has one. *)
Fixpoint from_last_dot (s : string) : option string :=
  match s with
  | EmptyString => None
  | String c r =>
      match from_last_dot r with
      | Some t => Some t
      | None => if Ascii.eqb c "." then Some s else None
      end
  end.

(** [PurePath.suffix] of a final component: with [i = name.rfind('.')],
    [name[i:]] when [0 < i < len(name) - 1], and [''] otherwise. *)
Definition suffix_of (name : string) : string :=
  match name with
  | EmptyString => ""
  | String _ r =>
      match from_last_dot r with
      | Some t => if String.length t <=? 1 then "" else t
      | None => ""
      end
  end.

(** [PurePath.stem] of a final component: [name[:i]] under the same
    condition, and the whole name otherwise. *)
Definition stem_of (name : string) : string :=
  let sfx := suffix_of name in
  substring 0 (String.length name - String.length sfx) name.

(** [s.startswith(prefix)] *)
Definition startswith (pre s : string) : bool := String.prefix pre s.

End Text.

Import Text.

(* ===================================================================== *)
(** * Paths *)
(* ===================================================================== *)

(** A component of a path: its first character and the rest, so that no
    component is empty. *)
Definition component : Type := ascii * string.

Abbreviation Path := (list component).

Definition text (c : component) : string := String c.1 c.2.

(** [p.name]: the final component, [''] for [Path('.')]. *)
Definition name (p : Path) : string :=
  match last p with
  | Some c => text c
  | None => ""
  end.

(** [p.parent]; [Path('.')] is its own parent. *)
Definition parent (p : Path) : Path := removelast p.

(** [p / n] for a string [n] that holds no separator; [p / ''] is [p]. *)
Definition joinpath (p : Path) (n : string) : Path :=
  match n with
  | EmptyString => p
  | String a r => p ++ [(a, r)]
  end.

Infix "//" := joinpath (at level 40, left associativity).

(** [Path(a, b, ...)] from the texts of the components. *)
Definition path_of (parts : list string) : Path := foldl joinpath [] parts.

(** [p.suffix] and [p.stem] *)
Definition suffix (p : Path) : string := suffix_of (name p).
Definition stem (p : Path) : string := stem_of (name p).

(** [str(p)] *)
Definition str_of_path (p : Path) : string :=
  match p with
  | [] => "."
  | _ => join "/" (text <$> p)
  end.

(* ===================================================================== *)
(** * The file system and the platform *)
(* ===================================================================== *)

(** Times are counted in microseconds, the resolution of [datetime].  A
    timestamp is an instant, counted from the epoch.  A [datetime] made
    by [datetime.fromtimestamp] is naive local time, counted likewise;
    datetimes compare as these integers. *)
Abbreviation datetime := Z.

(** What [os.stat] returns.  [st_birthtime] is absent where the platform
    has no such attribute ([hasattr(stat, 'st_birthtime')] is false). *)
Record stat_result := mkStat {
  st_birthtime : option Z;
  st_ctime : Z;
  st_mtime : Z
}.

Inductive Kind :=
  | Regular (data : string)
  | Directory (listable : bool).

Record Node := mkNode { kind : Kind; meta : stat_result }.

Abbreviation FS := (gmap Path Node).

(** The subclasses of [OSError] that the model raises; [OtherOSError]
    stands for every other [errno]. *)
Inductive os_error :=
  | PermissionError
  | FileNotFoundError
  | FileExistsError
  | IsADirectoryError
  | NotADirectoryError
  | OtherOSError (errno : nat).

Inductive exn :=
  | OSError (e : os_error)
  | EOFError
  | ValueError
  | OverflowError.

Inductive result (A : Type) :=
  | Ok (a : A)
  | Raise (e : exn).

Arguments Ok {A} a.
Arguments Raise {A} e.

Global Instance os_error_eq_dec : EqDecision os_error.
Proof. solve_decision. Defined.

Global Instance exn_eq_dec : EqDecision exn.
Proof. solve_decision. Defined.

Global Instance result_eq_dec {A} `{EqDecision A} : EqDecision (result A).
Proof. solve_decision. Defined.

Inductive os_name_t := posix | nt.

(** The platform the program runs on. *)
Class Platform := {
  (** [os.name] *)
  os_name : os_name_t;
  (** the order in which the operating system enumerates a directory *)
  listdir : FS → Path → list Path;
  (** the reasons outside this model (an entry of a directory that can
      be read but not searched, a link that loops) for which the
      operating system refuses [stat(p)] *)
  stat_refuses : FS → Path → option os_error;
  (** the reasons outside this model (permissions, a busy or read-only
      volume, a directory that is not empty) for which the operating
      system refuses [rename(src, dst)] *)
  os_refuses : FS → Path → Path → option os_error;
  (** [str(e)] of an [OSError] *)
  strerror : os_error → string;
  (** [datetime.fromtimestamp(t)]: the local time of the instant [t] in
      the time zone of the platform, or the exception raised for an
      instant that [datetime] or the platform cannot represent *)
  fromtimestamp : Z → result datetime
}.

(** [errno.EBADF] and [errno.ELOOP], with their values on Linux. *)
Definition EBADF : nat := 9.
Definition ELOOP : nat := 40.

(** [pathlib._ignore_error]: the errors of [stat] that [exists],
    [is_dir] and [is_file] answer with False: ENOENT, ENOTDIR, EBADF and
    ELOOP. *)
Definition ignore_error (e : os_error) : bool :=
  match e with
  | FileNotFoundError | NotADirectoryError => true
  | OtherOSError errno => bool_decide (errno ∈ [EBADF; ELOOP])
  | _ => false
  end.

Module Os.
Section Os.
Context `{Platform}.

(** [p.exists()] *)
Definition exists_ (fs : FS) (p : Path) : bool :=
  match fs !! p with
  | Some _ => true
  | None => false
  end.

(** [p.is_dir()] *)
Definition is_dir (fs : FS) (p : Path) : bool :=
  match fs !! p with
  | Some (mkNode (Directory _) _) => true
  | _ => false
  end.

(** [p.stat()] *)
Definition stat (fs : FS) (p : Path) : result stat_result :=
  match stat_refuses fs p with
  | Some e => Raise (OSError e)
  | None =>
      match fs !! p with
      | Some node => Ok (meta node)
      | None => Raise (OSError FileNotFoundError)
      end
  end.

(** [p.is_file()], as in the pathlib of Python 3.11: whether [stat]
    finds a regular file.  The errors that pathlib ignores, and
    [ValueError], give False; any other error of [stat] is raised. *)
Definition is_file (fs : FS) (p : Path) : result bool :=
  match stat fs p with
  | Ok _ =>
      Ok match fs !! p with
         | Some (mkNode (Regular _) _) => true
         | _ => false
         end
  | Raise (OSError e) => if ignore_error e then Ok false else Raise (OSError e)
  | Raise ValueError => Ok false
  | Raise e => Raise e
  end.

(** [list(p.iterdir())] *)
Definition iterdir (fs : FS) (p : Path) : result (list Path) :=
  match fs !! p with
  | Some (mkNode (Directory true) _) => Ok (listdir fs p)
  | Some (mkNode (Directory false) _) => Raise (OSError PermissionError)
  | Some (mkNode (Regular _) _) => Raise (OSError NotADirectoryError)
  | None => Raise (OSError FileNotFoundError)
  end.

(** [src.rename(dst)]: the entry at [src] moves to [dst].  On POSIX an
    existing file at [dst] is replaced silently; on Windows an existing
    [dst] raises [FileExistsError]. *)
Definition rename (fs : FS) (src dst : Path) : result FS :=
  match os_refuses fs src dst with
  | Some e => Raise (OSError e)
  | None =>
      match fs !! src with
      | None => Raise (OSError FileNotFoundError)
      | Some node =>
          match fs !! dst with
          | None => Ok (<[dst := node]> (delete src fs))
          | Some old =>
              match os_name with
              | nt => Raise (OSError FileExistsError)
              | posix =>
                  match kind node, kind old with
                  | Regular _, Directory _ => Raise (OSError IsADirectoryError)
                  | Directory _, Regular _ => Raise (OSError NotADirectoryError)
                  | _, _ => Ok (<[dst := node]> (delete src fs))
                  end
              end
          end
      end
  end.

End Os.
End Os.

Import Os.

(* ===================================================================== *)
(** * The monad of the program: state and exceptions over the world *)
(* ===================================================================== *)

(** The world of one run: the file system, the lines that the console
    still holds for [input], and the lines printed so far. *)
Record World := mkWorld {
  fs : FS;
  stdin : list string;
  stdout : list string
}.

Definition M (A : Type) : Type := World → result A * World.

Definition ret {A} (a : A) : M A := λ w, (Ok a, w).

Definition bind {A B} (m : M A) (k : A → M B) : M B :=
  λ w, match m w with
       | (Ok a, w') => k a w'
       | (Raise e, w') => (Raise e, w')
       end.

(** [raise e] *)
Definition raise {A} (e : exn) : M A := λ w, (Raise e, w).

(** [try: m  except ... as e: handler e] where [handler] sees every
    exception and re-raises those it does not catch. *)
Definition try_except {A} (m : M A) (handler : exn → M A) : M A :=
  λ w, match m w with
       | (Ok a, w') => (Ok a, w')
       | (Raise e, w') => handler e w'
       end.

Global Instance M_ret : MRet M := @ret.
Global Instance M_bind : MBind M := λ A B k m, bind m k.

(** [print(line)] *)
Definition print (line : string) : M unit :=
  λ w, (Ok tt, mkWorld (fs w) (stdin w) (stdout w ++ [line])).

(** A function that reads the file system. *)
Definition lift_read {A} (f : FS → result A) : M A := λ w, (f (fs w), w).

Section Program.
Context `{Platform}.

(** [src.rename(dst)] on the file system of the world. *)
Definition rename_path (src dst : Path) : M unit :=
  λ w, match rename (fs w) src dst with
       | Ok fs' => (Ok tt, mkWorld fs' (stdin w) (stdout w))
       | Raise e => (Raise e, w)
       end.

(* =================================================================== *)
(** * rename_photos.py *)
(* =================================================================== *)

Definition IMAGE_EXTENSIONS : gset string := {[ ".jpg"; ".jpeg"; ".png"; ".heic" ]}.

(** [sorted(IMAGE_EXTENSIONS)] *)
Definition sorted_IMAGE_EXTENSIONS : list string := [".heic"; ".jpeg"; ".jpg"; ".png"].

Definition get_creation_date (fs : FS) (file_path : Path) : result datetime :=
  match stat fs file_path with
  | Raise e => Raise e
  | Ok st =>
      match st_birthtime st with
      | Some birthtime => fromtimestamp birthtime
      | None =>
          match os_name with
          | nt => fromtimestamp (st_ctime st)
          | posix => fromtimestamp (st_mtime st)
          end
      end
  end.

(** The keys that [sorted(..., key=f)] computes before it sorts: every
    element with its key, or the first exception [f] raises. *)
Fixpoint decorate {A} (f : A → result datetime) (l : list A) : result (list (datetime * A)) :=
  match l with
  | [] => Ok []
  | x :: rest =>
      match f x with
      | Raise e => Raise e
      | Ok k =>
          match decorate f rest with
          | Raise e => Raise e
          | Ok krest => Ok ((k, x) :: krest)
          end
      end
  end.

(** Insertion in front of the first element with a key that is not
    smaller: equal keys keep the order of the input. *)
Fixpoint insert_by_key {A} (x : datetime * A) (l : list (datetime * A)) : list (datetime * A) :=
  match l with
  | [] => [x]
  | y :: rest =>
      if (x.1 <=? y.1)%Z then x :: y :: rest
      else y :: insert_by_key x rest
  end.

Fixpoint sort_by_key {A} (l : list (datetime * A)) : list (datetime * A) :=
  match l with
  | [] => []
  | x :: rest => insert_by_key x (sort_by_key rest)
  end.

(** [sorted(l, key=f)]: a stable sort, ascending in the key. *)
Definition sorted {A} (l : list A) (key : A → result datetime) : result (list A) :=
  match decorate key l with
  | Raise e => Raise e
  | Ok kl => Ok ((sort_by_key kl).*2)
  end.

(** The condition of the comprehension in [find_images]; the suffix
    is not looked at when [is_file] is False. *)
Definition is_image (fs : FS) (f : Path) : result bool :=
  match is_file fs f with
  | Raise e => Raise e
  | Ok false => Ok false
  | Ok true => Ok (bool_decide (lower (suffix f) ∈ IMAGE_EXTENSIONS))
  end.

(** [[f for f in entries if cond(f)]]: the entries that satisfy the
    condition, in their order, or the first exception that the
    condition raises. *)
Fixpoint select (cond : Path → result bool) (entries : list Path) : result (list Path) :=
  match entries with
  | [] => Ok []
  | f :: rest =>
      match cond f with
      | Raise e => Raise e
      | Ok keep =>
          match select cond rest with
          | Raise e => Raise e
          | Ok kept => Ok (if keep then f :: kept else kept)
          end
      end
  end.

Definition find_images (fs : FS) (folder : Path) : result (list Path) :=
  match iterdir fs folder with
  | Raise e => Raise e
  | Ok entries =>
      match select (is_image fs) entries with
      | Raise e => Raise e
      | Ok images => sorted images (get_creation_date fs)
      end
  end.

(** The loop of [generate_new_names], from the index [i]. *)
Fixpoint generate_from (i : nat) (images : list Path) : list (Path * Path) :=
  match images with
  | [] => []
  | image :: rest =>
      let new_name := format_02d i +:+ lower (suffix image) in
      let new_path := parent image // new_name in
      (image, new_path) :: generate_from (S i) rest
  end.

Definition generate_new_names (images : list Path) : list (Path * Path) :=
  generate_from 1 images.

(** The loop of [preview_renames]. *)
Fixpoint preview_loop (renames : list (Path * Path)) : M unit :=
  match renames with
  | [] => ret tt
  | (old_path, new_path) :: rest =>
      print ("  " +:+ name old_path +:+ " -> " +:+ name new_path) ;;
      preview_loop rest
  end.

Definition preview_renames (renames : list (Path * Path)) : M unit :=
  print "" ;;
  print "Preview of changes:" ;;
  print (times "-" 50) ;;
  preview_loop renames ;;
  print (times "-" 50) ;;
  print ("Total: " +:+ str_of_nat (length renames) +:+ " file(s) to rename") ;;
  print "".

Definition prompt : string := "Proceed with rename? (y/n): ".

(** [confirm_action]: every turn of its loop prints the prompt and
    consumes one line of the console; [input] raises [EOFError] when
    the console is exhausted. *)
Fixpoint confirm_loop (lines : list string) (out : list string)
  : result bool * list string * list string :=
  match lines with
  | [] => (Raise EOFError, [], out ++ [prompt])
  | line :: rest =>
      let response := lower (strip line) in
      if bool_decide (response ∈ ["y"; "yes"]) then (Ok true, rest, out ++ [prompt])
      else if bool_decide (response ∈ ["n"; "no"]) then (Ok false, rest, out ++ [prompt])
      else confirm_loop rest (out ++ [prompt; "Please enter 'y' or 'n'"])
  end.

Definition confirm_action : M bool :=
  λ w, match confirm_loop (stdin w) (stdout w) with
       | (r, lines, out) => (r, mkWorld (fs w) lines out)
       end.

Definition temp_path_of (old_path : Path) : Path :=
  parent old_path // ("__temp_rename_" +:+ name old_path).

(** The first loop of [rename_files]. *)
Definition temp_renames (renames : list (Path * Path)) : list (Path * Path * Path) :=
  (λ r, (r.1, temp_path_of r.1, r.2)) <$> renames.

(** First pass: rename to temp names. *)
Fixpoint first_pass (l : list (Path * Path * Path)) : M unit :=
  match l with
  | [] => ret tt
  | (old_path, temp_path, _) :: rest =>
      try_except (rename_path old_path temp_path)
        (λ e, match e with
              | OSError PermissionError =>
                  print ("Error: Permission denied for '" +:+ name old_path +:+ "'") ;;
                  raise e
              | OSError err =>
                  print ("Error renaming '" +:+ name old_path +:+ "': " +:+ strerror err) ;;
                  raise e
              | _ => raise e
              end) ;;
      first_pass rest
  end.

(** Second pass: rename to final names. *)
Fixpoint second_pass (l : list (Path * Path * Path)) (renamed_count : nat) : M nat :=
  match l with
  | [] => ret renamed_count
  | (_, temp_path, new_path) :: rest =>
      renamed_count ←
        try_except (rename_path temp_path new_path ;; ret (renamed_count + 1))
          (λ e, match e with
                | OSError PermissionError =>
                    print ("Error: Permission denied for '" +:+ name new_path +:+ "'") ;;
                    raise e
                | OSError err =>
                    print ("Error renaming to '" +:+ name new_path +:+ "': " +:+ strerror err) ;;
                    raise e
                | _ => raise e
                end);
      second_pass rest renamed_count
  end.

Definition rename_files (renames : list (Path * Path)) : M nat :=
  let temp_renames := temp_renames renames in
  first_pass temp_renames ;;
  second_pass temp_renames 0.

(** [main] after [argparse]: [folder] is [Path(args.folder)]. *)
Definition main (folder : Path) : M nat :=
  exists_folder ← lift_read (λ fs, Ok (exists_ fs folder));
  if negb exists_folder then
    print ("Error: Folder '" +:+ str_of_path folder +:+ "' does not exist") ;;
    ret 1
  else
  is_dir_folder ← lift_read (λ fs, Ok (is_dir fs folder));
  if negb is_dir_folder then
    print ("Error: '" +:+ str_of_path folder +:+ "' is not a directory") ;;
    ret 1
  else
  contents ←
    try_except (c ← lift_read (λ fs, iterdir fs folder); ret (Some c))
      (λ e, match e with
            | OSError PermissionError =>
                print ("Error: Permission denied accessing '" +:+ str_of_path folder +:+ "'") ;;
                ret None
            | _ => raise e
            end);
  match contents with
  | None => ret 1
  | Some [] =>
      print ("Error: Folder '" +:+ str_of_path folder +:+ "' is empty") ;;
      ret 1
  | Some (_ :: _) =>
      images ← lift_read (λ fs, find_images fs folder);
      match images with
      | [] =>
          print ("Error: No image files found in '" +:+ str_of_path folder +:+ "'") ;;
          print ("Supported formats: " +:+ join ", " sorted_IMAGE_EXTENSIONS) ;;
          ret 1
      | _ :: _ =>
          let renames := generate_new_names images in
          preview_renames renames ;;
          confirmed ← confirm_action;
          if negb confirmed then
            print "Operation cancelled" ;;
            ret 0
          else
            try_except
              (count ← rename_files renames;
               print "" ;;
               print ("Success! Renamed " +:+ str_of_nat count +:+ " file(s)") ;;
               ret 0)
              (λ e, match e with
                    | OSError _ =>
                        print "" ;;
                        print "Rename operation failed" ;;
                        ret 1
                    | _ => raise e
                    end)
      end
  end.

End Program.

(* ===================================================================== *)
(** * Vocabulary of the properties *)
(* ===================================================================== *)

(** No character of [s] is a dot. *)
Fixpoint nodot (s : string) : bool :=
  match s with
  | EmptyString => true
  | String c r => negb (Ascii.eqb c ".") && nodot r
  end.

Fixpoint all_digits (s : string) : bool :=
  match s with
  | EmptyString => true
  | String c r => is_digit c && all_digits r
  end.

(** What [suffix_of] returns: nothing, or a dot and a non-empty rest
    without a dot. *)
Definition is_suffix_text (e : string) : Prop :=
  e = "" ∨ ∃ r, e = String "." r ∧ r ≠ "" ∧ nodot r = true.

(** An ASCII capital letter. *)
Definition is_upper (c : ascii) : bool :=
  let n := nat_of_ascii c in (65 <=? n) && (n <=? 90).

(** The same character, or the same ASCII letter in the other case. *)
Definition same_letter (a b : ascii) : bool :=
  Ascii.eqb a b
  || (is_upper a && (nat_of_ascii b =? nat_of_ascii a + 32))
  || (is_upper b && (nat_of_ascii a =? nat_of_ascii b + 32)).

(** Two texts are equal up to the case of their ASCII letters. *)
Fixpoint eq_nocase (s t : string) : bool :=
  match s, t with
  | EmptyString, EmptyString => true
  | String a s', String b t' => same_letter a b && eq_nocase s' t'
  | _, _ => false
  end.

(** No ASCII capital letter occurs in [s]. *)
Fixpoint no_upper (s : string) : bool :=
  match s with
  | EmptyString => true
  | String c r => negb (is_upper c) && no_upper r
  end.

(** One of .jpg, .jpeg, .png and .heic, compared case-insensitively. *)
Definition recognized (sfx : string) : bool :=
  existsb (eq_nocase sfx) [".jpg"; ".jpeg"; ".png"; ".heic"].

(** The name of [p] starts with the prefix of the temporary names. *)
Definition has_temp_prefix (p : Path) : bool :=
  startswith "__temp_rename_" (name p).

(** The renames of the first and of the second pass of [rename_files],
    as pairs (source, destination), in the order they are made. *)
Definition staging (renames : list (Path * Path)) : list (Path * Path) :=
  (λ r, (r.1, temp_path_of r.1)) <$> renames.

Definition committing (renames : list (Path * Path)) : list (Path * Path) :=
  (λ r, (temp_path_of r.1, r.2)) <$> renames.

Definition rename_ops (renames : list (Path * Path)) : list (Path * Path) :=
  staging renames ++ committing renames.

(** A sequence of renames made one after the other: the file system
    reached, and the first failure if there is one. *)
Fixpoint run_ops `{Platform} (fs : FS) (ops : list (Path * Path))
  : FS * option (exn * (Path * Path)) :=
  match ops with
  | [] => (fs, None)
  | (src, dst) :: rest =>
      match rename fs src dst with
      | Ok fs' => run_ops fs' rest
      | Raise e => (fs, Some (e, (src, dst)))
      end
  end.

(** When [old] is about to be staged, after the entries [done], on the
    file system [fs1]: its temporary name is held by a file that this
    run did not stage. *)
Definition staging_collides (done : list (Path * Path)) (fs1 : FS) (old : Path) : Prop :=
  is_Some (fs1 !! temp_path_of old) ∧ temp_path_of old ∉ (staging done).*2.

(** Phase 1 is safe on [w]: whenever an entry is reached, its temporary
    name is not held by a file that the run did not stage. *)
Definition staging_is_safe `{Platform} (renames : list (Path * Path)) (w : World) : Prop :=
  ∀ done old new rest w1,
    renames = done ++ (old, new) :: rest →
    first_pass (temp_renames done) w = (Ok tt, w1) →
    ¬ staging_collides done (fs w1) old.

(** The targets of the plan are its sources in another order, or none
    of them is a source. *)
Definition targets_permute_or_avoid_sources (renames : list (Path * Path)) : Prop :=
  renames.*2 ≡ₚ renames.*1 ∨ ∀ p, p ∈ renames.*2 → p ∉ renames.*1.

(** No entry of the file system is named with the temporary prefix. *)
Definition no_temp_file (fs : FS) : Prop :=
  map_Forall (λ p _, has_temp_prefix p = false) fs.

(** Every run of [rename_files] on [w] that returns has moved every
    source of the plan to its target, and returns the number of entries. *)
Definition places_sources `{Platform} (renames : list (Path * Path)) (w : World) : Prop :=
  ∀ count w',
    rename_files renames w = (Ok count, w') →
    count = length renames ∧
    ∀ old new, (old, new) ∈ renames →
      is_Some (fs w !! old) ∧ fs w' !! new = fs w !! old.

(** The validation of [main] fails: the folder does not exist, is not a
    directory, cannot be listed, is empty, or holds no image. *)
Definition validation_fails `{Platform} (fs : FS) (folder : Path) : Prop :=
  exists_ fs folder = false ∨
  is_dir fs folder = false ∨
  iterdir fs folder = Raise (OSError PermissionError) ∨
  iterdir fs folder = Ok [] ∨
  find_images fs folder = Ok [].

(** A line of the console that [confirm_action] does not take for an
    answer. *)
Definition not_an_answer (line : string) : Prop :=
  lower (strip line) ∉ ["y"; "yes"; "n"; "no"].

(** The line that [rename_files] prints when a rename fails. *)
Definition first_pass_error `{Platform} (old_path : Path) (e : exn) : list string :=
  match e with
  | OSError PermissionError => ["Error: Permission denied for '" +:+ name old_path +:+ "'"]
  | OSError err => ["Error renaming '" +:+ name old_path +:+ "': " +:+ strerror err]
  | _ => []
  end.

Definition second_pass_error `{Platform} (new_path : Path) (e : exn) : list string :=
  match e with
  | OSError PermissionError => ["Error: Permission denied for '" +:+ name new_path +:+ "'"]
  | OSError err => ["Error renaming to '" +:+ name new_path +:+ "': " +:+ strerror err]
  | _ => []
  end.

(** A call that returns. *)
Definition answers {A} (r : result A) : Prop :=
  match r with
  | Ok _ => True
  | Raise _ => False
  end.

Global Instance answers_dec {A} (r : result A) : Decision (answers r).
Proof. destruct r; apply _. Defined.

(** An entry that [stat] finds to be a regular file, with a recognized
    extension. *)
Definition image_entry `{Platform} (fs : FS) (f : Path) : Prop :=
  is_file fs f = Ok true ∧ recognized (suffix f) = true.

Global Instance image_entry_dec `{Platform} (fs : FS) (f : Path) :
  Decision (image_entry fs f).
Proof. unfold image_entry. apply _. Defined.

(** Every entry can be examined: [is_file] answers for each of them, and
    the creation date of each image is one that [datetime] represents. *)
Definition examinable `{Platform} (fs : FS) (entries : list Path) : Prop :=
  Forall (λ f, answers (is_file fs f) ∧
               (image_entry fs f → answers (get_creation_date fs f))) entries.

(** [find_images] returns the images of [folder], whenever [folder] can
    be listed. *)
Definition finds_images `{Platform} (fs : FS) (folder : Path) : Prop :=
  ∀ entries,
    iterdir fs folder = Ok entries →
    ∃ images,
      find_images fs folder = Ok images ∧
      ∀ f, f ∈ images ↔ f ∈ entries ∧ image_entry fs f.

(** The key of a file in [find_images]: its creation date, when [stat]
    succeeds. *)
Definition has_key `{Platform} (fs : FS) (t : datetime) (f : Path) : Prop :=
  get_creation_date fs f = Ok t.

Global Instance has_key_dec `{Platform} (fs : FS) (t : datetime) (f : Path) :
  Decision (has_key fs t f).
Proof. unfold has_key. apply _. Defined.

(* ===================================================================== *)
(** * Platforms and worlds of the examples *)
(* ===================================================================== *)

Module Examples.

(** The entries of a directory, in the order of the keys of the map. *)
Definition listdir_keys (fs : FS) (d : Path) : list Path :=
  filter (λ p, parent p = d ∧ p ≠ []) ((map_to_list fs).*1).

Definition describe (e : os_error) : string :=
  match e with
  | PermissionError => "[Errno 13] Permission denied"
  | FileNotFoundError => "[Errno 2] No such file or directory"
  | FileExistsError => "[WinError 183] Cannot create a file when that file already exists"
  | IsADirectoryError => "[Errno 21] Is a directory"
  | NotADirectoryError => "[Errno 20] Not a directory"
  | OtherOSError n => "[Errno " +:+ str_of_nat n +:+ "]"
  end.

(** The first and the last instant that [datetime] represents. *)
Definition MIN_INSTANT : Z := -62135596800000000.
Definition MAX_INSTANT : Z := 253402300799999999.

(** [datetime.fromtimestamp] where the local time is UTC. *)
Definition utc_fromtimestamp (t : Z) : result datetime :=
  if bool_decide (MIN_INSTANT ≤ t ≤ MAX_INSTANT)%Z then Ok t else Raise ValueError.

(** A POSIX system and Windows, where nothing is refused. *)
Definition posix_platform : Platform :=
  {| os_name := posix; listdir := listdir_keys;
     stat_refuses := λ _ _, None;
     os_refuses := λ _ _ _, None; strerror := describe;
     fromtimestamp := utc_fromtimestamp |}.

Definition windows_platform : Platform :=
  {| os_name := nt; listdir := listdir_keys;
     stat_refuses := λ _ _, None;
     os_refuses := λ _ _ _, None; strerror := describe;
     fromtimestamp := utc_fromtimestamp |}.

(** A POSIX system where the entries of [folder] may be listed but not
    examined: the folder can be read, not searched. *)
Definition unsearchable_platform (folder : Path) : Platform :=
  {| os_name := posix; listdir := listdir_keys;
     stat_refuses := λ _ p,
       if bool_decide (parent p = folder ∧ p ≠ []) then Some PermissionError else None;
     os_refuses := λ _ _ _, None; strerror := describe;
     fromtimestamp := utc_fromtimestamp |}.

(** A POSIX system where the files named [locked] may not be renamed. *)
Definition locking_platform (locked : string) : Platform :=
  {| os_name := posix; listdir := listdir_keys;
     stat_refuses := λ _ _, None;
     os_refuses := λ _ src _,
       if bool_decide (name src = locked) then Some PermissionError else None;
     strerror := describe;
     fromtimestamp := utc_fromtimestamp |}.

Definition file (data : string) (mtime : Z) : Node :=
  mkNode (Regular data) (mkStat None mtime mtime).

Definition dir : Node := mkNode (Directory true) (mkStat None 0 0).

Definition photos : Path := path_of ["photos"].

(** Two photos with each other's name in creation order, and a note. *)
Definition fs_swap : FS :=
  <[photos := dir]> (<[photos // "01.heic" := file "first" 5]>
    (<[photos // "02.heic" := file "second" 3]>
      (<[photos // "notes.txt" := file "note" 1]> ∅))).

Definition plan_swap : list (Path * Path) :=
  [(photos // "01.heic", photos // "02.heic");
   (photos // "02.heic", photos // "01.heic")].

(** Two files, and a plan that names the temporary name of the second
    as the target of the first. *)
Definition fs_ab : FS :=
  <[photos // "a.jpg" := file "A" 1]> (<[photos // "b.jpg" := file "B" 2]> ∅).

Definition plan_onto_temp : list (Path * Path) :=
  [(photos // "a.jpg", temp_path_of (photos // "b.jpg"));
   (photos // "b.jpg", photos // "c.jpg")].

(** A photo, and a file that already has its temporary name. *)
Definition fs_stale : FS :=
  <[photos // "a.jpg" := file "A" 1]>
    (<[temp_path_of (photos // "a.jpg") := file "stale" 2]> ∅).

Definition plan_a : list (Path * Path) :=
  [(photos // "a.jpg", photos // "01.jpg")].

(** Fourteen photos. *)
Definition fourteen : list Path :=
  (λ n, photos // ("IMG_" +:+ str_of_nat n +:+ ".JPG")) <$> seq 1 14.

(** Photos with suffixes in several cases, two of them made at the same
    time, a folder named like a photo, a note and a film. *)
Definition fs_mixed : FS :=
  <[photos := dir]> (<[photos // "b.JPG" := file "B" 0]>
    (<[photos // "a.Heic" := file "A" 2]>
      (<[photos // "c.png" := file "C" 2]>
        (<[photos // "e.jpeg" := file "E" 1]>
          (<[photos // "album.jpg" := dir]>
            (<[photos // "notes.txt" := file "note" 1]>
              (<[photos // "film.mp4" := file "F" 7]> ∅))))))).

(** A photo dated after the last instant of [datetime]. *)
Definition fs_far : FS :=
  <[photos := dir]> (<[photos // "a.jpg" := file "A" (MAX_INSTANT + 1)]> ∅).


Definition world_of (fs : FS) (lines : list string) : World := mkWorld fs lines [].

End Examples.


(* ===================================================================== *)
(** * Proofs *)
(* ===================================================================== *)

#[local] Set Warnings "-clear-no-such-hyp".
#[local] Arguments String.append !_ _ / : simpl nomatch.

(* ===================================================================== *)
(** * Properties of text *)
(* ===================================================================== *)

Section TextFacts.

Lemma app_empty_r (s : string) : s +:+ "" = s.
Proof. induction s as [|c s IH]; simpl; [done | by rewrite IH]. Qed.

Lemma app_assoc_s (a b c : string) : (a +:+ b) +:+ c = a +:+ (b +:+ c).
Proof. induction a as [|x a IH]; simpl; [done | by rewrite IH]. Qed.

Lemma length_app_s (a b : string) :
  String.length (a +:+ b) = String.length a + String.length b.
Proof. induction a as [|x a IH]; simpl; [done | by rewrite IH]. Qed.

Lemma substring_0_app (a b : string) :
  substring 0 (String.length a) (a +:+ b) = a.
Proof.
  induction a as [|x a IH]; simpl.
  - by destruct b.
  - by rewrite IH.
Qed.

(** ** Decimal digits *)

Lemma digit_value (d : nat) : d < 10 → nat_of_ascii (digit d) = 48 + d.
Proof. intros Hd. unfold digit. apply nat_ascii_embedding. lia. Qed.

Lemma is_digit_digit (d : nat) : d < 10 → is_digit (digit d) = true.
Proof.
  intros Hd. unfold is_digit. rewrite digit_value by done.
  apply andb_true_intro; split; apply Nat.leb_le; lia.
Qed.

Lemma mod10_lt (n : nat) : n mod 10 < 10.
Proof. apply Nat.mod_upper_bound. lia. Qed.

Lemma div10_lt (n : nat) : 10 ≤ n → n / 10 < n.
Proof. intros Hn. apply Nat.div_lt; lia. Qed.

Lemma str_digits_acc (fuel n : nat) (acc : string) :
  str_digits fuel n acc = str_digits fuel n "" +:+ acc.
Proof.
  revert n acc. induction fuel as [|fuel IH]; intros n acc; cbn [str_digits]; [done|].
  destruct (n <? 10); [done|].
  rewrite IH. rewrite (IH _ (String _ "")). by rewrite app_assoc_s.
Qed.

Lemma str_digits_fuel (f1 f2 n : nat) (acc : string) :
  n < f1 → n < f2 → str_digits f1 n acc = str_digits f2 n acc.
Proof.
  revert f2 n acc. induction f1 as [|f1 IH]; intros f2 n acc H1 H2; [lia|].
  destruct f2 as [|f2]; [lia|]. cbn [str_digits].
  destruct (Nat.ltb_spec n 10) as [Hlt|Hge]; [done|].
  pose proof (div10_lt n Hge). apply IH; lia.
Qed.

(** The digits of a number are those of its tenth, then its last one. *)
Lemma str_of_nat_small (n : nat) : n < 10 → str_of_nat n = String (digit n) "".
Proof.
  intros Hn. unfold str_of_nat. cbn [str_digits].
  destruct (Nat.ltb_spec n 10); [|lia].
  by rewrite Nat.mod_small.
Qed.

Lemma str_of_nat_step (n : nat) :
  10 ≤ n → str_of_nat n = str_of_nat (n / 10) +:+ String (digit (n mod 10)) "".
Proof.
  intros Hn. unfold str_of_nat at 1. cbn [str_digits].
  destruct (Nat.ltb_spec n 10); [lia|].
  rewrite str_digits_acc. f_equal.
  pose proof (div10_lt n Hn). apply str_digits_fuel; lia.
Qed.

Lemma str_of_nat_ind (P : nat → Prop) :
  (∀ n, n < 10 → P n) →
  (∀ n, 10 ≤ n → P (n / 10) → P n) →
  ∀ n, P n.
Proof.
  intros Hsmall Hstep n. induction (lt_wf n) as [n _ IH].
  destruct (Nat.lt_ge_cases n 10) as [Hlt|Hge]; [by apply Hsmall|].
  apply Hstep; [done|]. apply IH. by apply div10_lt.
Qed.

Lemma length_str_of_nat_pos (n : nat) : 1 ≤ String.length (str_of_nat n).
Proof.
  destruct (Nat.lt_ge_cases n 10) as [Hlt|Hge].
  - by rewrite str_of_nat_small.
  - rewrite str_of_nat_step, length_app_s by done. cbn [String.length]. lia.
Qed.

Lemma length_str_of_nat_small (n : nat) : n < 10 → String.length (str_of_nat n) = 1.
Proof. intros Hn. by rewrite str_of_nat_small. Qed.

Lemma length_str_of_nat_10 (n : nat) : 10 ≤ n → 2 ≤ String.length (str_of_nat n).
Proof.
  intros Hn. rewrite str_of_nat_step, length_app_s by done.
  pose proof (length_str_of_nat_pos (n / 10)). cbn [String.length]. lia.
Qed.

Lemma length_str_of_nat_100 (n : nat) : 100 ≤ n → 3 ≤ String.length (str_of_nat n).
Proof.
  intros Hn. rewrite str_of_nat_step, length_app_s by lia.
  assert (10 ≤ n / 10) by (apply Nat.div_le_lower_bound; lia).
  pose proof (length_str_of_nat_10 (n / 10)). cbn [String.length]. lia.
Qed.

Lemma int_digits_app (a b : string) (acc : nat) :
  int_digits (a +:+ b) acc = int_digits a acc ≫= int_digits b.
Proof.
  revert acc. induction a as [|c a IH]; intros acc; simpl; [done|].
  destruct (is_digit c); [apply IH | done].
Qed.

Lemma int_digits_str_of_nat (n acc : nat) :
  int_digits (str_of_nat n) acc = Some (10 ^ String.length (str_of_nat n) * acc + n).
Proof.
  revert acc. induction n as [n Hn|n Hn IH] using str_of_nat_ind; intros acc.
  - rewrite str_of_nat_small by done. cbn [int_digits String.length].
    rewrite is_digit_digit, digit_value by done. f_equal.
    change (10 ^ 1) with 10. lia.
  - rewrite str_of_nat_step by done.
    rewrite int_digits_app, IH, length_app_s.
    cbn [mbind option_bind int_digits String.length].
    pose proof (mod10_lt n).
    rewrite is_digit_digit, digit_value by done. f_equal.
    rewrite Nat.pow_add_r. change (10 ^ 1) with 10.
    pose proof (Nat.div_mod n 10 ltac:(lia)). nia.
Qed.

(** [int(str(n)) = n]: no digit is lost. *)
Lemma int_of_str_of_nat (n : nat) : int_of_string (str_of_nat n) = Some n.
Proof.
  unfold int_of_string. pose proof (length_str_of_nat_pos n) as Hlen.
  destruct (str_of_nat n) eqn:E; [simpl in Hlen; lia|].
  rewrite <- E, int_digits_str_of_nat. f_equal. lia.
Qed.

Lemma format_02d_small (i : nat) : i < 10 → format_02d i = "0" +:+ str_of_nat i.
Proof. intros Hi. unfold format_02d. by rewrite length_str_of_nat_small. Qed.

Lemma format_02d_large (i : nat) : 10 ≤ i → format_02d i = str_of_nat i.
Proof.
  intros Hi. unfold format_02d. pose proof (length_str_of_nat_10 i Hi).
  by replace (2 - String.length (str_of_nat i)) with 0 by lia.
Qed.

Lemma length_format_02d (i : nat) :
  String.length (format_02d i) = Nat.max 2 (String.length (str_of_nat i)).
Proof.
  destruct (Nat.lt_ge_cases i 10) as [Hlt|Hge].
  - rewrite format_02d_small, length_app_s, length_str_of_nat_small by done. done.
  - rewrite format_02d_large by done. pose proof (length_str_of_nat_10 i Hge). lia.
Qed.

Lemma int_of_format_02d (i : nat) : int_of_string (format_02d i) = Some i.
Proof.
  destruct (Nat.lt_ge_cases i 10) as [Hlt|Hge].
  - rewrite format_02d_small by done.
    change (int_of_string ("0" +:+ str_of_nat i)) with (int_digits (str_of_nat i) 0).
    rewrite int_digits_str_of_nat. f_equal. lia.
  - rewrite format_02d_large by done. apply int_of_str_of_nat.
Qed.

Lemma format_02d_inj (i j : nat) : format_02d i = format_02d j → i = j.
Proof.
  intros Heq. pose proof (int_of_format_02d i) as Hi.
  rewrite Heq, int_of_format_02d in Hi. congruence.
Qed.

End TextFacts.


(** ** Dots, suffixes and stems *)

Section SuffixFacts.

Lemma lower_char_dot (c : ascii) : Ascii.eqb (lower_char c) "." = Ascii.eqb c ".".
Proof. destruct c as [[] [] [] [] [] [] [] []]; reflexivity. Qed.

Lemma is_digit_not_dot (c : ascii) : is_digit c = true → Ascii.eqb c "." = false.
Proof. destruct c as [[] [] [] [] [] [] [] []]; intros Hd; try reflexivity; discriminate Hd. Qed.

Lemma nodot_lower (s : string) : nodot (lower s) = nodot s.
Proof. induction s as [|c s IH]; simpl; [done|]. by rewrite lower_char_dot, IH. Qed.

Lemma all_digits_nodot (s : string) : all_digits s = true → nodot s = true.
Proof.
  induction s as [|c s IH]; simpl; [done|].
  intros [Hc Hs]%andb_prop. by rewrite (is_digit_not_dot c Hc), IH.
Qed.

Lemma all_digits_app (a b : string) :
  all_digits (a +:+ b) = all_digits a && all_digits b.
Proof. induction a as [|c a IH]; simpl; [done|]. by rewrite IH, andb_assoc. Qed.

Lemma all_digits_str_of_nat (n : nat) : all_digits (str_of_nat n) = true.
Proof.
  induction n as [n Hn|n Hn IH] using str_of_nat_ind.
  - rewrite str_of_nat_small by done. cbn [all_digits].
    by rewrite is_digit_digit.
  - rewrite str_of_nat_step, all_digits_app, IH by done. cbn [all_digits andb].
    by rewrite is_digit_digit by apply mod10_lt.
Qed.

Lemma all_digits_format_02d (i : nat) : all_digits (format_02d i) = true.
Proof.
  destruct (Nat.lt_ge_cases i 10) as [Hlt|Hge].
  - rewrite format_02d_small by done.
    change (all_digits ("0" +:+ str_of_nat i)) with (all_digits (str_of_nat i)).
    apply all_digits_str_of_nat.
  - rewrite format_02d_large by done. apply all_digits_str_of_nat.
Qed.

Lemma format_02d_nonempty (i : nat) : format_02d i ≠ "".
Proof.
  intros Heq. pose proof (length_format_02d i) as Hlen.
  rewrite Heq in Hlen. simpl in Hlen. lia.
Qed.

Lemma from_last_dot_nodot (s : string) : nodot s = true → from_last_dot s = None.
Proof.
  induction s as [|c s IH]; simpl; [done|].
  intros [Hc Hs]%andb_prop. rewrite IH by done.
  by destruct (Ascii.eqb c ".").
Qed.

Lemma from_last_dot_shape (s t : string) :
  from_last_dot s = Some t → ∃ r, t = String "." r ∧ nodot r = true.
Proof.
  revert t. induction s as [|c s IH]; simpl; intros t Ht; [done|].
  destruct (from_last_dot s) as [t'|] eqn:E.
  - inversion Ht; subst. by apply IH.
  - destruct (Ascii.eqb_spec c ".") as [->|]; [|done].
    inversion Ht; subst. exists s. split; [done|].
    clear IH Ht. induction s as [|d s IHs]; simpl in *; [done|].
    destruct (from_last_dot s); [done|].
    destruct (Ascii.eqb d "."); [done|]. simpl. by apply IHs.
Qed.

Lemma from_last_dot_app (a b : string) :
  nodot a = true → from_last_dot (a +:+ b) = from_last_dot b.
Proof.
  induction a as [|c a IH]; simpl; [done|].
  intros [Hc Ha]%andb_prop. rewrite IH by done.
  destruct (from_last_dot b); [done|].
  by destruct (Ascii.eqb c ".").
Qed.

Lemma suffix_of_shape (s : string) : is_suffix_text (suffix_of s).
Proof.
  unfold suffix_of. destruct s as [|c s]; [by left|].
  destruct (from_last_dot s) as [t|] eqn:E; [|by left].
  destruct (Nat.leb_spec (String.length t) 1) as [Hle|Hgt]; [by left|].
  destruct (from_last_dot_shape _ _ E) as (r & -> & Hr).
  right. exists r. split_and!; [done| |done].
  intros ->. simpl in Hgt. lia.
Qed.

Lemma lower_suffix_shape (e : string) : is_suffix_text e → is_suffix_text (lower e).
Proof.
  intros [->|(r & -> & Hne & Hr)]; [by left|].
  right. exists (lower r). split_and!.
  - done.
  - by destruct r.
  - by rewrite nodot_lower.
Qed.

Lemma from_last_dot_suffix (r : string) :
  nodot r = true → from_last_dot (String "." r) = Some (String "." r).
Proof. intros Hr. simpl. by rewrite from_last_dot_nodot. Qed.

(** A name made of digits and a suffix text splits back into them. *)
Lemma suffix_of_digits_app (ds e : string) :
  ds ≠ "" → nodot ds = true → is_suffix_text e →
  suffix_of (ds +:+ e) = e.
Proof.
  intros Hne Hds He. destruct ds as [|c ds]; [done|].
  simpl in Hds. apply andb_prop in Hds as [_ Hds].
  simpl. rewrite from_last_dot_app by done.
  destruct He as [->|(r & -> & Hr & Hnd)]; [done|].
  rewrite from_last_dot_suffix by done.
  destruct r; [done|]. done.
Qed.

Lemma stem_of_digits_app (ds e : string) :
  ds ≠ "" → nodot ds = true → is_suffix_text e →
  stem_of (ds +:+ e) = ds.
Proof.
  intros Hne Hds He. unfold stem_of.
  rewrite suffix_of_digits_app, length_app_s by done.
  replace (String.length ds + String.length e - String.length e)
    with (String.length ds) by lia.
  apply substring_0_app.
Qed.

End SuffixFacts.

(* ===================================================================== *)
(** * Properties of paths *)
(* ===================================================================== *)

Section PathFacts.

Lemma name_joinpath (p : Path) (n : string) : n ≠ "" → name (p // n) = n.
Proof.
  intros Hn. destruct n as [|a r]; [done|].
  unfold name, joinpath. by rewrite last_snoc.
Qed.

Lemma parent_joinpath (p : Path) (n : string) : n ≠ "" → parent (p // n) = p.
Proof.
  intros Hn. destruct n as [|a r]; [done|].
  unfold parent, joinpath. apply removelast_last.
Qed.

(** A path is its parent joined with its name. *)
Lemma parent_name (p : Path) : parent p // name p = p.
Proof.
  destruct p as [|c p] using rev_ind; [done|].
  unfold parent, name. rewrite removelast_last, last_snoc.
  by destruct c.
Qed.

Lemma joinpath_inj (p q : Path) (n m : string) :
  n ≠ "" → m ≠ "" → p // n = q // m → p = q ∧ n = m.
Proof.
  intros Hn Hm Heq. split.
  - by rewrite <- (parent_joinpath p n Hn), Heq, parent_joinpath.
  - by rewrite <- (name_joinpath p n Hn), Heq, name_joinpath.
Qed.

Lemma name_temp_path_of (p : Path) :
  name (temp_path_of p) = "__temp_rename_" +:+ name p.
Proof. unfold temp_path_of. by rewrite name_joinpath. Qed.

Lemma parent_temp_path_of (p : Path) : parent (temp_path_of p) = parent p.
Proof. unfold temp_path_of. by rewrite parent_joinpath. Qed.

(** The temporary path determines the path it was made from. *)
Lemma temp_path_of_inj (p q : Path) : temp_path_of p = temp_path_of q → p = q.
Proof.
  intros Heq.
  assert (name p = name q) as Hname.
  { apply (f_equal name) in Heq. rewrite !name_temp_path_of in Heq.
    by simplify_eq/=. }
  assert (parent p = parent q) as Hparent.
  { apply (f_equal parent) in Heq. by rewrite !parent_temp_path_of in Heq. }
  by rewrite <- (parent_name p), <- (parent_name q), Hname, Hparent.
Qed.

Lemma temp_path_of_ne (p : Path) : temp_path_of p ≠ p.
Proof.
  intros Heq. apply (f_equal (λ q, String.length (name q))) in Heq.
  rewrite name_temp_path_of, length_app_s in Heq. simpl in Heq. lia.
Qed.

End PathFacts.


(* ===================================================================== *)
(** * Renames on the file system *)
(* ===================================================================== *)

Section RenameFacts.
Context `{Platform}.

(** A rename that succeeds moves the node of the source to the
    destination, on every platform. *)
Lemma rename_Ok_inv (fs fs' : FS) (src dst : Path) :
  rename fs src dst = Ok fs' →
  ∃ node, fs !! src = Some node ∧ fs' = <[dst := node]> (delete src fs).
Proof.
  unfold rename. destruct (os_refuses fs src dst); [done|].
  destruct (fs !! src) as [node|]; [|done].
  intros Hr. exists node. split; [done|].
  destruct (fs !! dst) as [old|]; [|by inversion Hr].
  destruct os_name; [|done].
  destruct (kind node), (kind old); by inversion Hr.
Qed.

Lemma rename_Raise_OSError (fs : FS) (src dst : Path) (e : exn) :
  rename fs src dst = Raise e → ∃ err, e = OSError err.
Proof.
  unfold rename. destruct (os_refuses fs src dst); [intros [= <-]; eauto|].
  destruct (fs !! src) as [node|]; [|intros [= <-]; eauto].
  destruct (fs !! dst) as [old|]; [|done].
  destruct os_name; [|intros [= <-]; eauto].
  destruct (kind node), (kind old); intros [= <-] || done; eauto.
Qed.

Lemma rename_missing (fs fs' : FS) (src dst : Path) :
  fs !! src = None → rename fs src dst ≠ Ok fs'.
Proof. intros Hsrc (node & Hnode & _)%rename_Ok_inv. congruence. Qed.

(** Where nothing stands at the destination, the platforms agree. *)
Lemma rename_fresh (fs : FS) (src dst : Path) (node : Node) :
  os_refuses fs src dst = None → fs !! src = Some node → fs !! dst = None →
  rename fs src dst = Ok (<[dst := node]> (delete src fs)).
Proof. intros Hr Hs Hd. unfold rename. by rewrite Hr, Hs, Hd. Qed.

Lemma run_ops_cons_inv (fs fs' : FS) (src dst : Path) (rest : list (Path * Path)) :
  run_ops fs ((src, dst) :: rest) = (fs', None) →
  ∃ node, fs !! src = Some node ∧
          run_ops (<[dst := node]> (delete src fs)) rest = (fs', None).
Proof.
  simpl. destruct (rename fs src dst) as [fs1|e] eqn:E; [|done].
  intros Hrest. apply rename_Ok_inv in E as (node & Hnode & ->). eauto.
Qed.

Lemma run_ops_app (fs : FS) (l1 l2 : list (Path * Path)) :
  run_ops fs (l1 ++ l2) =
  match run_ops fs l1 with
  | (fs1, None) => run_ops fs1 l2
  | failed => failed
  end.
Proof.
  revert fs. induction l1 as [|[src dst] l1 IH]; intros fs; simpl; [done|].
  destruct (rename fs src dst); [apply IH | done].
Qed.

(** What is present after a run was present before it or is the
    destination of one of its renames. *)
Lemma run_ops_present (ops : list (Path * Path)) (fs fs' : FS) (p : Path) :
  run_ops fs ops = (fs', None) →
  is_Some (fs' !! p) → is_Some (fs !! p) ∨ p ∈ ops.*2.
Proof.
  revert fs. induction ops as [|[src dst] ops IH]; intros fs Hrun Hp.
  - left. by simplify_eq/=.
  - apply run_ops_cons_inv in Hrun as (node & Hnode & Hrun).
    destruct (IH _ Hrun Hp) as [Hin|Hin].
    + destruct (decide (p = dst)) as [->|Hne]; [right; set_solver|].
      rewrite lookup_insert_ne in Hin by done.
      destruct (decide (p = src)) as [->|Hne'].
      * rewrite lookup_delete_eq in Hin. by destruct Hin.
      * rewrite lookup_delete_ne in Hin by done. by left.
    + right. set_solver.
Qed.

(** A source that is missing, and that no rename brings, makes the
    run fail. *)
Lemma run_ops_missing (ops : list (Path * Path)) (fs fs' : FS) (a : Path) :
  run_ops fs ops = (fs', None) →
  fs !! a = None → a ∉ ops.*2 → a ∉ ops.*1.
Proof.
  revert fs. induction ops as [|[src dst] ops IH]; intros fs Hrun Ha Hdst.
  - set_solver.
  - apply run_ops_cons_inv in Hrun as (node & Hnode & Hrun).
    assert (a ≠ src) by congruence.
    assert (a ≠ dst) by set_solver.
    assert (a ∉ ops.*1); [|set_solver].
    apply (IH _ Hrun).
    + by rewrite lookup_insert_ne, lookup_delete_ne.
    + set_solver.
Qed.

(** In a run that succeeds and never renames onto one of its sources,
    the sources are pairwise distinct. *)
Lemma run_ops_NoDup (ops : list (Path * Path)) (fs fs' : FS) :
  run_ops fs ops = (fs', None) →
  (∀ a b, a ∈ ops.*1 → b ∈ ops.*2 → a ≠ b) →
  NoDup ops.*1.
Proof.
  revert fs. induction ops as [|[src dst] ops IH]; intros fs Hrun Hdisj.
  - constructor.
  - apply run_ops_cons_inv in Hrun as (node & Hnode & Hrun).
    rewrite fmap_cons. constructor.
    + apply (run_ops_missing _ _ _ _ Hrun).
      * assert (src ≠ dst) by (apply Hdisj; set_solver).
        by rewrite lookup_insert_ne, lookup_delete_eq.
      * intros Hin. by apply (Hdisj src src); set_solver.
    + apply (IH _ Hrun). intros a b Ha Hb. apply Hdisj; set_solver.
Qed.

(** The file system after a run that succeeds, when its destinations
    are pairwise distinct and none of them is one of its sources. *)
Lemma run_ops_lookup (ops : list (Path * Path)) (fs fs' : FS) :
  run_ops fs ops = (fs', None) →
  NoDup ops.*2 →
  (∀ a b, a ∈ ops.*1 → b ∈ ops.*2 → a ≠ b) →
  (∀ a b, (a, b) ∈ ops → is_Some (fs !! a) ∧ fs' !! b = fs !! a) ∧
  (∀ p, p ∉ ops.*2 → fs' !! p = if decide (p ∈ ops.*1) then None else fs !! p).
Proof.
  revert fs. induction ops as [|[src dst] ops IH]; intros fs Hrun Hnd Hdisj.
  - simplify_eq/=. split; [set_solver|]. by intros p _.
  - apply run_ops_cons_inv in Hrun as (node & Hnode & Hrun).
    rewrite fmap_cons in Hnd. apply NoDup_cons in Hnd as [Hdst Hnd].
    destruct (IH _ Hrun Hnd) as [IHmoved IHother].
    { intros a b Ha Hb. apply Hdisj; set_solver. }
    assert (src ≠ dst) as Hsd by (apply Hdisj; set_solver).
    assert (dst ∉ ops.*1) as Hdst'.
    { intros Hin. by apply (Hdisj dst dst); set_solver. }
    split.
    + intros a b [[= -> ->]|Hin]%elem_of_cons.
      * split; [by eexists|].
        rewrite (IHother dst Hdst). rewrite decide_False by done.
        by rewrite lookup_insert_eq.
      * destruct (IHmoved a b Hin) as [Hsome ->].
        assert (a ≠ dst).
        { apply Hdisj; [|set_solver]. rewrite fmap_cons. right.
          by apply (list_elem_of_fmap_2 fst _ (a, b)). }
        rewrite lookup_insert_ne in Hsome |- * by done.
        destruct (decide (a = src)) as [->|Hne].
        { rewrite lookup_delete_eq in Hsome. by destruct Hsome. }
        by rewrite lookup_delete_ne in Hsome |- * by done.
    + intros p Hp. rewrite fmap_cons in Hp.
      apply not_elem_of_cons in Hp as [Hpd Hp].
      rewrite (IHother p Hp), fmap_cons.
      destruct (decide (p ∈ ops.*1)) as [Hin|Hnin].
      * by rewrite decide_True by set_solver.
      * rewrite lookup_insert_ne by done.
        destruct (decide (p = src)) as [->|Hne].
        -- rewrite lookup_delete_eq. by rewrite decide_True by set_solver.
        -- rewrite lookup_delete_ne by done. by rewrite decide_False by set_solver.
Qed.

End RenameFacts.


(* ===================================================================== *)
(** * The two passes of rename_files *)
(* ===================================================================== *)

Section Passes.
Context `{Platform}.

Lemma world_eta (w : World) : mkWorld (fs w) (stdin w) (stdout w) = w.
Proof. by destruct w. Qed.

(** The first pass makes the renames of [staging], one after the
    other, and stops at the first that fails. *)
Lemma first_pass_run (renames : list (Path * Path)) (w : World) :
  first_pass (temp_renames renames) w =
  match run_ops (fs w) (staging renames) with
  | (fs1, None) => (Ok tt, mkWorld fs1 (stdin w) (stdout w))
  | (fs1, Some (e, (old_path, _))) =>
      (Raise e, mkWorld fs1 (stdin w) (stdout w ++ first_pass_error old_path e))
  end.
Proof.
  revert w. induction renames as [|[old new] renames IH]; intros w.
  - simpl. by rewrite world_eta.
  - unfold temp_renames, staging. rewrite !fmap_cons. cbn [first_pass run_ops fst snd].
    unfold mbind, M_bind, bind, try_except, rename_path.
    destruct (rename (fs w) old (temp_path_of old)) as [fs1|e] eqn:E.
    + apply (IH (mkWorld fs1 (stdin w) (stdout w))).
    + destruct e as [[]| | |]; cbn; rewrite ?app_nil_r, ?world_eta; reflexivity.
Qed.

(** The second pass makes the renames of [committing] and counts them. *)
Lemma second_pass_run (renames : list (Path * Path)) (renamed_count : nat) (w : World) :
  second_pass (temp_renames renames) renamed_count w =
  match run_ops (fs w) (committing renames) with
  | (fs2, None) => (Ok (renamed_count + length renames), mkWorld fs2 (stdin w) (stdout w))
  | (fs2, Some (e, (_, new_path))) =>
      (Raise e, mkWorld fs2 (stdin w) (stdout w ++ second_pass_error new_path e))
  end.
Proof.
  revert renamed_count w.
  induction renames as [|[old new] renames IH]; intros renamed_count w.
  - simpl. by rewrite Nat.add_0_r, world_eta.
  - unfold temp_renames, committing. rewrite !fmap_cons. cbn [second_pass run_ops fst snd length].
    unfold mbind, M_bind, bind, try_except, rename_path, mret, M_ret, ret.
    destruct (rename (fs w) (temp_path_of old) new) as [fs1|e] eqn:E.
    + replace (renamed_count + S (length renames))
        with (renamed_count + 1 + length renames) by lia.
      apply (IH (renamed_count + 1) (mkWorld fs1 (stdin w) (stdout w))).
    + destruct e as [[]| | |]; cbn; rewrite ?app_nil_r, ?world_eta; reflexivity.
Qed.

Lemma rename_files_run (renames : list (Path * Path)) (w : World) :
  rename_files renames w =
  match run_ops (fs w) (staging renames) with
  | (fs1, None) =>
      match run_ops fs1 (committing renames) with
      | (fs2, None) => (Ok (length renames), mkWorld fs2 (stdin w) (stdout w))
      | (fs2, Some (e, (_, new_path))) =>
          (Raise e, mkWorld fs2 (stdin w) (stdout w ++ second_pass_error new_path e))
      end
  | (fs1, Some (e, (old_path, _))) =>
      (Raise e, mkWorld fs1 (stdin w) (stdout w ++ first_pass_error old_path e))
  end.
Proof.
  unfold rename_files, mbind, M_bind, bind. rewrite first_pass_run.
  destruct (run_ops (fs w) (staging renames)) as [fs1 [[e [old_path ?]]|]]; [done|].
  by rewrite second_pass_run.
Qed.

(** A run of [rename_files] that returns made every rename of
    [rename_ops]. *)
Lemma rename_files_Ok_inv (renames : list (Path * Path)) (w w' : World) (count : nat) :
  rename_files renames w = (Ok count, w') →
  ∃ fs1, run_ops (fs w) (staging renames) = (fs1, None) ∧
         run_ops fs1 (committing renames) = (fs w', None) ∧
         count = length renames ∧ stdin w' = stdin w ∧ stdout w' = stdout w.
Proof.
  rewrite rename_files_run.
  destruct (run_ops (fs w) (staging renames)) as [fs1 [[e [old_path ?]]|]] eqn:E1; [done|].
  destruct (run_ops fs1 (committing renames)) as [fs2 [[e [? new_path]]|]] eqn:E2; [done|].
  intros [= <- <-]. by exists fs1.
Qed.

Lemma staging_sources (renames : list (Path * Path)) : (staging renames).*1 = renames.*1.
Proof. unfold staging. rewrite <- list_fmap_compose. done. Qed.

Lemma staging_temps (renames : list (Path * Path)) :
  (staging renames).*2 = temp_path_of <$> renames.*1.
Proof. unfold staging. rewrite <- !list_fmap_compose. done. Qed.

Lemma committing_temps (renames : list (Path * Path)) :
  (committing renames).*1 = temp_path_of <$> renames.*1.
Proof. unfold committing. rewrite <- !list_fmap_compose. done. Qed.

Lemma committing_targets (renames : list (Path * Path)) : (committing renames).*2 = renames.*2.
Proof. unfold committing. rewrite <- list_fmap_compose. done. Qed.

Lemma temp_renames_temps (renames : list (Path * Path)) :
  (λ t : Path * Path * Path, t.1.2) <$> temp_renames renames = temp_path_of <$> renames.*1.
Proof. unfold temp_renames. rewrite <- !list_fmap_compose. done. Qed.

Lemma has_temp_prefix_temp_path_of (p : Path) : has_temp_prefix (temp_path_of p) = true.
Proof.
  unfold has_temp_prefix, startswith. rewrite name_temp_path_of. simpl.
  by destruct (name p).
Qed.

Global Instance temp_path_of_Inj : Inj (=) (=) temp_path_of.
Proof. intros p q. apply temp_path_of_inj. Qed.

End Passes.


(* ===================================================================== *)
(** * Execution: the two-phase renamer *)
(* ===================================================================== *)

Section Execution.
Context `{Platform}.

Lemma temps_NoDup (renames : list (Path * Path)) :
  NoDup renames.*1 → NoDup (temp_path_of <$> renames.*1).
Proof. intros Hnd. by apply (NoDup_fmap_2 temp_path_of). Qed.

(** The file system that a run of [rename_files] leaves when it
    returns, for a plan with distinct targets and no temporary name. *)
Lemma rename_files_lookup (renames : list (Path * Path)) (w w' : World) (count : nat) :
  NoDup renames.*2 →
  (∀ p, p ∈ renames.*1 ++ renames.*2 → has_temp_prefix p = false) →
  rename_files renames w = (Ok count, w') →
  count = length renames ∧
  (∀ old new, (old, new) ∈ renames →
     is_Some (fs w !! old) ∧ fs w' !! new = fs w !! old) ∧
  (∀ p, p ∉ renames.*2 →
     fs w' !! p =
     if decide (p ∈ renames.*1 ∨ p ∈ temp_path_of <$> renames.*1)
     then None else fs w !! p).
Proof.
  intros Htargets Hplain (fs1 & Hstage & Hcommit & -> & _ & _)%rename_files_Ok_inv.
  assert (∀ p q : Path, has_temp_prefix p = false → p ≠ temp_path_of q) as Hne.
  { intros p q Hp ->. by rewrite has_temp_prefix_temp_path_of in Hp. }
  assert (∀ a b, a ∈ (staging renames).*1 → b ∈ (staging renames).*2 → a ≠ b) as Hdisj1.
  { intros a b. rewrite staging_sources, staging_temps.
    intros Ha (q & -> & _)%list_elem_of_fmap. apply Hne, Hplain. set_solver. }
  assert (∀ a b, a ∈ (committing renames).*1 → b ∈ (committing renames).*2 → a ≠ b) as Hdisj2.
  { intros a b. rewrite committing_temps, committing_targets.
    intros (q & -> & _)%list_elem_of_fmap Hb. apply not_eq_sym, Hne, Hplain. set_solver. }
  pose proof (run_ops_NoDup _ _ _ Hstage Hdisj1) as Hsources.
  rewrite staging_sources in Hsources.
  destruct (run_ops_lookup _ _ _ Hstage) as [Hstaged Hkept1]; [|done|].
  { rewrite staging_temps. by apply temps_NoDup. }
  destruct (run_ops_lookup _ _ _ Hcommit) as [Hcommitted Hkept2]; [|done|].
  { by rewrite committing_targets. }
  rewrite staging_sources, staging_temps in Hkept1.
  rewrite committing_temps, committing_targets in Hkept2.
  split_and!; [done| |].
  - intros old new Hin.
    destruct (Hstaged old (temp_path_of old)) as [Hsome Hat_temp].
    { by apply (list_elem_of_fmap_2 (λ r : Path * Path, (r.1, temp_path_of r.1)) _ (old, new)). }
    destruct (Hcommitted (temp_path_of old) new) as [_ Hat_new].
    { by apply (list_elem_of_fmap_2 (λ r : Path * Path, (temp_path_of r.1, r.2)) _ (old, new)). }
    split; [done|]. by rewrite Hat_new, Hat_temp.
  - intros p Hp. rewrite (Hkept2 p Hp).
    destruct (decide (p ∈ temp_path_of <$> renames.*1)) as [Hin|Hnin].
    + by rewrite decide_True by tauto.
    + rewrite (Hkept1 p Hnin).
      destruct (decide (p ∈ renames.*1)) as [Hin'|Hnin'].
      * by rewrite decide_True by tauto.
      * by rewrite decide_False by tauto.
Qed.

(** C1, as amended.  For every rename plan whose targets are pairwise
    distinct and in which no source and no target is named with the
    temporary prefix, whatever the platform and whether or not targets
    are also sources: after [rename_files] returns, the count is the
    number of entries, every source existed and its node now stands at
    its planned target, and every other path that was a source or a
    temporary name is free while the rest of the directory is as it
    was. *)
Theorem rename_files_places_sources
    (renames : list (Path * Path)) (w w' : World) (count : nat) :
  NoDup renames.*2 →
  (∀ p, p ∈ renames.*1 ++ renames.*2 → has_temp_prefix p = false) →
  rename_files renames w = (Ok count, w') →
  count = length renames ∧
  (∀ old new, (old, new) ∈ renames →
     is_Some (fs w !! old) ∧ fs w' !! new = fs w !! old) ∧
  (∀ p, p ∉ renames.*2 →
     (p ∈ renames.*1 ∨ p ∈ temp_path_of <$> renames.*1 → fs w' !! p = None) ∧
     (p ∉ renames.*1 → p ∉ temp_path_of <$> renames.*1 → fs w' !! p = fs w !! p)).
Proof.
  intros Htargets Hplain Hrun.
  destruct (rename_files_lookup _ _ _ _ Htargets Hplain Hrun) as (Hcount & Hmoved & Hrest).
  split_and!; [done..|].
  intros p Hp. rewrite (Hrest p Hp). split.
  - intros Hin. by rewrite decide_True.
  - intros Hs Ht. by rewrite decide_False by tauto.
Qed.

(** C2, as amended.  For every plan and every directory state in which
    no entry's temporary path is occupied before the run, on every
    platform: whenever phase 1 reaches an entry, its temporary name is
    not held by any file that the run did not stage itself. *)
Theorem staging_never_collides (renames : list (Path * Path)) (w : World) :
  (∀ old, old ∈ renames.*1 → fs w !! temp_path_of old = None) →
  staging_is_safe renames w.
Proof.
  intros Hfresh done old new rest w1 -> Hpass [Hheld Hforeign].
  rewrite first_pass_run in Hpass.
  destruct (run_ops (fs w) (staging done)) as [fs1 [[e [old_path ?]]|]] eqn:Hrun; [done|].
  injection Hpass as <-. simpl in Hheld.
  destruct (run_ops_present _ _ _ _ Hrun Hheld) as [Hbefore|Hstaged]; [|done].
  rewrite Hfresh in Hbefore; [by destruct Hbefore|].
  rewrite fmap_app, fmap_cons. set_solver.
Qed.

(** C10.  Within one call of [rename_files] on a plan with pairwise
    distinct sources, the temporary paths are pairwise distinct; so the
    temporary path of an entry is never one that an earlier entry of
    the run was staged to. *)
Theorem temp_paths_distinct (renames : list (Path * Path)) :
  NoDup renames.*1 →
  NoDup ((λ t : Path * Path * Path, t.1.2) <$> temp_renames renames) ∧
  ∀ done old new rest,
    renames = done ++ (old, new) :: rest →
    temp_path_of old ∉ (λ t : Path * Path * Path, t.1.2) <$> temp_renames done.
Proof.
  intros Hnd. split.
  - rewrite temp_renames_temps. by apply temps_NoDup.
  - intros done old new rest -> Hin.
    rewrite temp_renames_temps in Hin.
    apply list_elem_of_fmap in Hin as (q & Heq & Hq).
    apply temp_path_of_inj in Heq as <-.
    rewrite fmap_app, fmap_cons in Hnd.
    apply NoDup_app in Hnd as (_ & Hnd & _).
    apply (Hnd old Hq). set_solver.
Qed.

End Execution.


(* ===================================================================== *)
(** * The case of letters *)
(* ===================================================================== *)

Section CaseFacts.

(** A property of characters that holds of the 256 of them. *)
Lemma forall_ascii (P : ascii → bool) :
  forallb P (List.map ascii_of_nat (seq 0 256)) = true → ∀ c, P c = true.
Proof.
  intros Hall c. rewrite forallb_forall in Hall. apply Hall.
  apply in_map_iff. exists (nat_of_ascii c). split.
  - apply ascii_nat_embedding.
  - apply in_seq. pose proof (nat_ascii_bounded c). lia.
Qed.

(** [lower_char] leaves no capital letter. *)
Lemma is_upper_lower_char (c : ascii) : is_upper (lower_char c) = false.
Proof.
  apply negb_true_iff.
  apply (forall_ascii (λ c, negb (is_upper (lower_char c)))).
  vm_compute. reflexivity.
Qed.

(** [lower_char] changes at most the case of a letter. *)
Lemma same_letter_lower_char (c : ascii) : same_letter (lower_char c) c = true.
Proof.
  apply (forall_ascii (λ c, same_letter (lower_char c) c)).
  vm_compute. reflexivity.
Qed.

(** Two characters are the same letter exactly when [lower_char] makes
    them equal. *)
Lemma same_letter_spec (a b : ascii) :
  same_letter a b = Ascii.eqb (lower_char a) (lower_char b).
Proof.
  apply Bool.eqb_prop.
  revert b. apply (forall_ascii (λ b, Bool.eqb (same_letter a b) _)).
  revert a.
  apply (forall_ascii
           (λ a, forallb (λ b, Bool.eqb (same_letter a b)
                                 (Ascii.eqb (lower_char a) (lower_char b)))
                   (List.map ascii_of_nat (seq 0 256)))).
  vm_compute. reflexivity.
Qed.

Lemma no_upper_lower (s : string) : no_upper (lower s) = true.
Proof.
  induction s as [|c s IH]; [done|].
  cbn [lower no_upper]. by rewrite is_upper_lower_char, IH.
Qed.

Lemma eq_nocase_lower_l (s : string) : eq_nocase (lower s) s = true.
Proof.
  induction s as [|c s IH]; [done|].
  cbn [lower eq_nocase]. by rewrite same_letter_lower_char, IH.
Qed.

(** Equality up to case is equality of the lowercased texts. *)
Lemma eq_nocase_spec (s t : string) : eq_nocase s t = true ↔ lower s = lower t.
Proof.
  revert t. induction s as [|a s IH]; intros [|b t]; cbn [eq_nocase lower]; try done.
  rewrite andb_true_iff, same_letter_spec, Ascii.eqb_eq, IH. split.
  - by intros [-> ->].
  - by intros [= -> ->].
Qed.

Lemma no_upper_app (s t : string) : no_upper (s +:+ t) = no_upper s && no_upper t.
Proof.
  induction s as [|c s IH]; [done|].
  cbn [String.append no_upper]. by rewrite IH, andb_assoc.
Qed.

Lemma is_digit_not_upper (c : ascii) : is_digit c = true → is_upper c = false.
Proof.
  unfold is_digit, is_upper. cbn zeta.
  rewrite andb_true_iff, andb_false_iff, !Nat.leb_le, !Nat.leb_gt. lia.
Qed.

Lemma all_digits_no_upper (s : string) : all_digits s = true → no_upper s = true.
Proof.
  induction s as [|c s IH]; [done|].
  cbn [all_digits no_upper]. intros [Hc Hs]%andb_true_iff.
  by rewrite (is_digit_not_upper c Hc), IH.
Qed.

End CaseFacts.

(* ===================================================================== *)
(** * Plan generation *)
(* ===================================================================== *)

Section PlanGeneration.

Lemma digit_not_zero (d : nat) : 1 ≤ d → d < 10 → digit d ≠ "0"%char.
Proof.
  intros H1 H10 Heq. apply (f_equal nat_of_ascii) in Heq.
  rewrite digit_value in Heq by done.
  change (nat_of_ascii "0") with 48 in Heq. lia.
Qed.

(** The decimal digits of a positive number do not start with a zero. *)
Lemma str_of_nat_leading (n : nat) :
  1 ≤ n → ∃ c r, str_of_nat n = String c r ∧ c ≠ "0"%char.
Proof.
  induction n as [n Hn|n Hn IH] using str_of_nat_ind; intros Hpos.
  - rewrite str_of_nat_small by done. eexists _, _. split; [done|].
    by apply digit_not_zero.
  - rewrite str_of_nat_step by done.
    destruct IH as (c & r & -> & Hc).
    { apply Nat.div_le_lower_bound; lia. }
    by eexists _, _.
Qed.

Lemma new_name_nonempty (i : nat) (e : string) : format_02d i +:+ e ≠ "".
Proof.
  pose proof (format_02d_nonempty i). by destruct (format_02d i).
Qed.

Lemma name_new_path (image : Path) (i : nat) :
  name (parent image // (format_02d i +:+ lower (suffix image)))
  = format_02d i +:+ lower (suffix image).
Proof. apply name_joinpath, new_name_nonempty. Qed.

Lemma stem_new_path (image : Path) (i : nat) :
  stem (parent image // (format_02d i +:+ lower (suffix image))) = format_02d i.
Proof.
  unfold stem. rewrite name_new_path.
  apply stem_of_digits_app.
  - apply format_02d_nonempty.
  - apply all_digits_nodot, all_digits_format_02d.
  - apply lower_suffix_shape, suffix_of_shape.
Qed.

Lemma suffix_new_path (image : Path) (i : nat) :
  suffix (parent image // (format_02d i +:+ lower (suffix image)))
  = lower (suffix image).
Proof.
  unfold suffix at 1. rewrite name_new_path.
  apply suffix_of_digits_app.
  - apply format_02d_nonempty.
  - apply all_digits_nodot, all_digits_format_02d.
  - apply lower_suffix_shape, suffix_of_shape.
Qed.

Lemma parent_new_path (image : Path) (i : nat) :
  parent (parent image // (format_02d i +:+ lower (suffix image))) = parent image.
Proof. apply parent_joinpath, new_name_nonempty. Qed.

Lemma generate_from_sources (i : nat) (images : list Path) :
  (generate_from i images).*1 = images.
Proof.
  revert i. induction images as [|image images IH]; intros i; simpl; [done|].
  by rewrite IH.
Qed.

Lemma generate_from_targets (i : nat) (images : list Path) :
  (generate_from i images).*2 =
  imap (λ j image, parent image // (format_02d (i + j) +:+ lower (suffix image))) images.
Proof.
  revert i. induction images as [|image images IH]; intros i; [done|].
  cbn [generate_from]. rewrite fmap_cons, imap_cons, IH. cbn [snd].
  rewrite Nat.add_0_r. f_equal.
  apply imap_ext. intros j x _. simpl. by rewrite Nat.add_succ_r.
Qed.

Lemma generate_from_stems (i : nat) (images : list Path) :
  stem <$> (generate_from i images).*2 = format_02d <$> seq i (length images).
Proof.
  revert i. induction images as [|image images IH]; intros i; [done|].
  cbn [generate_from length seq]. rewrite !fmap_cons, IH. cbn [snd].
  by rewrite stem_new_path.
Qed.

Lemma generate_from_suffixes (i : nat) (images : list Path) :
  suffix <$> (generate_from i images).*2 = (λ image, lower (suffix image)) <$> images.
Proof.
  revert i. induction images as [|image images IH]; intros i; [done|].
  cbn [generate_from]. rewrite !fmap_cons, IH. cbn [snd].
  by rewrite suffix_new_path.
Qed.

Lemma generate_from_parents (i : nat) (images : list Path) :
  parent <$> (generate_from i images).*2 = parent <$> images.
Proof.
  revert i. induction images as [|image images IH]; intros i; [done|].
  cbn [generate_from]. rewrite !fmap_cons, IH. cbn [snd].
  by rewrite parent_new_path.
Qed.

Lemma format_02d_seq_NoDup (i n : nat) : NoDup (format_02d <$> seq i n).
Proof.
  apply NoDup_fmap_2; [|apply NoDup_seq].
  intros a b. apply format_02d_inj.
Qed.

(** The suffix of a target is that of its source up to the case of
    the letters, and the name of a target holds no capital letter. *)
Lemma generate_from_case (i : nat) (images : list Path) :
  Forall (λ r, eq_nocase (suffix r.2) (suffix r.1) = true ∧
               no_upper (name r.2) = true) (generate_from i images).
Proof.
  revert i. induction images as [|image images IH]; intros i; [constructor|].
  cbn [generate_from]. constructor; [|apply IH]. cbn [fst snd]. split.
  - rewrite suffix_new_path. apply eq_nocase_lower_l.
  - rewrite name_new_path, no_upper_app, no_upper_lower, andb_true_r.
    apply all_digits_no_upper, all_digits_format_02d.
Qed.

(** C3.  [generate_new_names] makes one pair per image, in the order
    of the images and with the images as sources, none skipped and
    none added.  The target of the image at position [i] (from 0) is,
    in the parent directory of the image, the index [i + 1] formatted
    on two digits at least, followed by the lowercased suffix of the
    image.  The stems of the targets are the indices 1..N, their
    suffixes the lowercased suffixes of the sources, and the targets
    are pairwise distinct.  Lowercased: the suffix of a target is the
    suffix of its source up to the case of the letters, and no capital
    letter is left in the name of a target.  No image gives the empty
    plan. *)
Theorem generate_new_names_plan (images : list Path) :
  let renames := generate_new_names images in
  renames.*1 = images ∧
  length renames = length images ∧
  renames.*2 =
    imap (λ i image, parent image // (format_02d (S i) +:+ lower (suffix image))) images ∧
  stem <$> renames.*2 = format_02d <$> seq 1 (length images) ∧
  (λ p, int_of_string (stem p)) <$> renames.*2 = Some <$> seq 1 (length images) ∧
  suffix <$> renames.*2 = (λ image, lower (suffix image)) <$> images ∧
  parent <$> renames.*2 = parent <$> images ∧
  NoDup renames.*2 ∧
  Forall (λ r, eq_nocase (suffix r.2) (suffix r.1) = true ∧
               no_upper (name r.2) = true) renames ∧
  generate_new_names [] = [].
Proof.
  intros renames. subst renames. unfold generate_new_names.
  pose proof (generate_from_sources 1 images) as Hsources.
  pose proof (generate_from_stems 1 images) as Hstems.
  split_and!.
  - done.
  - by rewrite <- Hsources at 2; rewrite length_fmap.
  - apply generate_from_targets.
  - done.
  - rewrite (list_fmap_compose stem int_of_string), Hstems.
    rewrite <- list_fmap_compose. apply list_fmap_ext.
    intros _ i _. apply int_of_format_02d.
  - apply generate_from_suffixes.
  - apply generate_from_parents.
  - apply (NoDup_fmap_1 stem). rewrite Hstems. apply format_02d_seq_NoDup.
  - apply generate_from_case.
  - done.
Qed.

(** C4.  The numeric part of the target made for the image at the
    1-based position [i] is [i] in decimal, filled with a zero on the
    left when [i] has one digit and left as it is from 10 on: it reads
    back as [i], has at least two characters, and three or more from
    100 on; the decimal digits themselves start with no zero.  In
    particular 14 images get the numeric parts 01 to 14. *)
Theorem target_number_padded (images : list Path) (i : nat) (image : Path) :
  1 ≤ i →
  images !! (i - 1) = Some image →
  (∃ new_path,
     generate_new_names images !! (i - 1) = Some (image, new_path) ∧
     stem new_path = format_02d i) ∧
  int_of_string (format_02d i) = Some i ∧
  String.length (format_02d i) = Nat.max 2 (String.length (str_of_nat i)) ∧
  (i < 10 → format_02d i = "0" +:+ str_of_nat i) ∧
  (10 ≤ i → format_02d i = str_of_nat i) ∧
  (100 ≤ i → 3 ≤ String.length (format_02d i)) ∧
  (∃ c r, str_of_nat i = String c r ∧ c ≠ "0"%char) ∧
  (length images = 14 →
   stem <$> (generate_new_names images).*2 =
   ["01"; "02"; "03"; "04"; "05"; "06"; "07"; "08"; "09"; "10"; "11"; "12"; "13"; "14"]).
Proof.
  intros Hpos Himage. unfold generate_new_names.
  pose proof (generate_from_sources 1 images) as Hsrc.
  pose proof (generate_from_stems 1 images) as Hstem.
  assert (length (generate_from 1 images) = length images) as Hlen.
  { by rewrite <- Hsrc at 2; rewrite length_fmap. }
  split_and!.
  - assert (is_Some (generate_from 1 images !! (i - 1))) as [[old new] Hentry].
    { apply lookup_lt_is_Some. rewrite Hlen. by apply lookup_lt_Some in Himage. }
    assert (old = image) as ->.
    { apply (f_equal (fmap fst)) in Hentry. rewrite <- list_lookup_fmap in Hentry.
      rewrite Hsrc, Himage in Hentry. by simplify_eq/=. }
    exists new. split; [done|].
    apply (f_equal (fmap snd)) in Hentry. rewrite <- list_lookup_fmap in Hentry.
    apply (f_equal (fmap stem)) in Hentry. rewrite <- list_lookup_fmap in Hentry.
    rewrite Hstem, list_lookup_fmap in Hentry.
    rewrite lookup_seq_lt in Hentry by (by apply lookup_lt_Some in Himage).
    simpl in Hentry. replace (S (i - 1)) with i in Hentry by lia. by simplify_eq.
  - apply int_of_format_02d.
  - apply length_format_02d.
  - apply format_02d_small.
  - apply format_02d_large.
  - intros Hi. rewrite length_format_02d.
    pose proof (length_str_of_nat_100 i Hi). lia.
  - by apply str_of_nat_leading.
  - intros H14. by rewrite Hstem, H14.
Qed.

End PlanGeneration.

(* ===================================================================== *)
(** * Discovery *)
(* ===================================================================== *)

Section CreationDate.
Context `{Platform}.

(** C7.  For every file that [stat] finds, [get_creation_date] is what
    [datetime.fromtimestamp] makes of the birth time when the platform
    has that attribute; otherwise, on Windows, of the change time
    (which is there the creation time); otherwise of the time of last
    modification. *)
Theorem get_creation_date_fallback (fs : FS) (file_path : Path) (st : stat_result) :
  stat fs file_path = Ok st →
  (∀ birthtime, st_birthtime st = Some birthtime →
     get_creation_date fs file_path = fromtimestamp birthtime) ∧
  (st_birthtime st = None → os_name = nt →
     get_creation_date fs file_path = fromtimestamp (st_ctime st)) ∧
  (st_birthtime st = None → os_name ≠ nt →
     get_creation_date fs file_path = fromtimestamp (st_mtime st)).
Proof.
  intros Hstat. unfold get_creation_date. rewrite Hstat. split_and!.
  - by intros birthtime ->.
  - by intros -> ->.
  - intros -> Hos. by destruct os_name.
Qed.

End CreationDate.


Section StableSort.
Context {A : Type}.
Implicit Types (x y : datetime * A) (l : list (datetime * A)).

(** The order of the keys, on elements with their key. *)
Let key_le : relation (datetime * A) := λ x y, (x.1 ≤ y.1)%Z.

Lemma insert_by_key_perm x l : insert_by_key x l ≡ₚ x :: l.
Proof.
  induction l as [|y l IH]; simpl; [done|].
  destruct (x.1 <=? y.1)%Z; [done|].
  by rewrite IH, Permutation_swap.
Qed.

Lemma sort_by_key_perm l : sort_by_key l ≡ₚ l.
Proof.
  induction l as [|x l IH]; simpl; [done|].
  by rewrite insert_by_key_perm, IH.
Qed.

Lemma insert_by_key_sorted x l :
  StronglySorted key_le l → StronglySorted key_le (insert_by_key x l).
Proof.
  induction l as [|y l IH]; simpl; intros Hl.
  - by repeat constructor.
  - apply StronglySorted_cons in Hl as [Hy Hl].
    destruct (Z.leb_spec x.1 y.1) as [Hle|Hgt].
    + apply StronglySorted_cons. split; [|by apply StronglySorted_cons].
      constructor; [done|].
      eapply Forall_impl; [exact Hy|]. unfold key_le. intros z Hz. simpl in *. lia.
    + apply StronglySorted_cons. split; [|by apply IH].
      rewrite insert_by_key_perm. constructor; [|done]. unfold key_le. lia.
Qed.

Lemma sort_by_key_sorted l : StronglySorted key_le (sort_by_key l).
Proof.
  induction l as [|x l IH]; simpl; [constructor|].
  by apply insert_by_key_sorted.
Qed.

(** Insertion keeps an element in front of those with its key. *)
Lemma insert_by_key_filter (t : datetime) x l :
  filter (λ y, y.1 = t) (insert_by_key x l) = filter (λ y, y.1 = t) (x :: l).
Proof.
  induction l as [|y l IH]; simpl; [done|].
  destruct (Z.leb_spec x.1 y.1) as [Hle|Hgt]; [done|].
  rewrite filter_cons, IH, !filter_cons.
  destruct (decide (y.1 = t)), (decide (x.1 = t)); try done; lia.
Qed.

(** The sort is stable: the elements with a given key keep their
    order. *)
Lemma sort_by_key_stable (t : datetime) l :
  filter (λ y, y.1 = t) (sort_by_key l) = filter (λ y, y.1 = t) l.
Proof.
  induction l as [|x l IH]; simpl; [done|].
  by rewrite insert_by_key_filter, !filter_cons, IH.
Qed.

Lemma decorate_Ok (f : A → result datetime) (l : list A) kl :
  decorate f l = Ok kl → kl.*2 = l ∧ Forall (λ x, f x.2 = Ok x.1) kl.
Proof.
  revert kl. induction l as [|a l IH]; simpl; intros kl Hkl.
  - by simplify_eq.
  - destruct (f a) as [k|] eqn:Hk; [|done].
    destruct (decorate f l) as [krest|]; [|done].
    simplify_eq. destruct (IH krest eq_refl) as [<- Hall].
    split; [done|]. by constructor.
Qed.

Lemma decorate_total (f : A → result datetime) (l : list A) :
  Forall (λ a, ∃ k, f a = Ok k) l → ∃ kl, decorate f l = Ok kl.
Proof.
  induction 1 as [|a l [k Hk] _ [krest IH]]; simpl; [by eexists|].
  rewrite Hk, IH. by eexists.
Qed.

Lemma filter_decorated `{EqDecision A} (f : A → result datetime) (t : datetime) l :
  Forall (λ x, f x.2 = Ok x.1) l →
  filter (λ a, f a = Ok t) l.*2 = (filter (λ x, x.1 = t) l).*2.
Proof.
  induction 1 as [|x l Hx _ IH]; [done|].
  rewrite fmap_cons, !filter_cons, IH.
  destruct (decide (x.1 = t)) as [<-|Hne].
  - by rewrite decide_True.
  - rewrite decide_False; [done|]. rewrite Hx. congruence.
Qed.

(** [sorted(l, key=f)], when [f] raises on no element of [l]: the
    elements of [l], by ascending key, those of equal key in the order
    of [l]. *)
Lemma sorted_spec `{EqDecision A} (l : list A) (f : A → result datetime) :
  Forall (λ a, ∃ k, f a = Ok k) l →
  ∃ out keys,
    sorted l f = Ok out ∧
    out ≡ₚ l ∧
    Forall2 (λ k a, f a = Ok k) keys out ∧
    StronglySorted Z.le keys ∧
    ∀ t, filter (λ a, f a = Ok t) out = filter (λ a, f a = Ok t) l.
Proof.
  intros (kl & Hkl)%decorate_total.
  destruct (decorate_Ok _ _ _ Hkl) as [Hl Hkeys].
  assert (Forall (λ x, f x.2 = Ok x.1) (sort_by_key kl)) as Hsorted_keys.
  { by rewrite sort_by_key_perm. }
  exists (sort_by_key kl).*2, (sort_by_key kl).*1.
  unfold sorted. rewrite Hkl. split_and!.
  - done.
  - by rewrite sort_by_key_perm, Hl.
  - apply Forall2_fmap, Forall_Forall2_diag.
    eapply Forall_impl; [exact Hsorted_keys|]. done.
  - apply (StronglySorted_fmap fst key_le); [done|]. apply sort_by_key_sorted.
  - intros t. rewrite <- Hl.
    rewrite !(filter_decorated f t) by done.
    by rewrite sort_by_key_stable.
Qed.

(** When [sorted(l, key=f)] returns, [f] has raised on no element. *)
Lemma sorted_Ok (l out : list A) (f : A → result datetime) :
  sorted l f = Ok out → Forall (λ a, ∃ k, f a = Ok k) l.
Proof.
  unfold sorted. destruct (decorate f l) as [kl|] eqn:Hkl; [|done]. intros _.
  destruct (decorate_Ok _ _ _ Hkl) as [<- Hkeys].
  apply Forall_fmap. eapply Forall_impl; [exact Hkeys|].
  intros x Hx. exists x.1. exact Hx.
Qed.

End StableSort.

Section FindImages.
Context `{Platform}.

Lemma lower_char_idemp (c : ascii) : lower_char (lower_char c) = lower_char c.
Proof. destruct c as [[] [] [] [] [] [] [] []]; reflexivity. Qed.

Lemma lower_idemp (s : string) : lower (lower s) = lower s.
Proof. induction s as [|c s IH]; simpl; [done|]. by rewrite lower_char_idemp, IH. Qed.

(** The recognized extensions are written in lower case. *)
Lemma IMAGE_EXTENSIONS_lower (ext : string) :
  ext ∈ IMAGE_EXTENSIONS → lower ext = ext.
Proof.
  unfold IMAGE_EXTENSIONS. rewrite !elem_of_union, !elem_of_singleton.
  intros [[[->| ->]| ->]| ->]; reflexivity.
Qed.

(** The test of [find_images] on a suffix is the comparison, without
    regard to case, with the four extensions. *)
Lemma recognized_spec (sfx : string) :
  recognized sfx = true ↔ lower sfx ∈ IMAGE_EXTENSIONS.
Proof.
  unfold recognized, IMAGE_EXTENSIONS. cbn [existsb].
  rewrite !orb_true_iff, !eq_nocase_spec, !elem_of_union, !elem_of_singleton.
  change (lower ".jpg") with ".jpg". change (lower ".jpeg") with ".jpeg".
  change (lower ".png") with ".png". change (lower ".heic") with ".heic".
  intuition discriminate.
Qed.

Lemma is_image_spec (fs : FS) (f : Path) :
  is_image fs f = Ok true ↔ image_entry fs f.
Proof.
  unfold is_image, image_entry. rewrite recognized_spec.
  destruct (is_file fs f) as [[|]|e].
  - split.
    + intros [= Hext]. split; [done|]. by apply bool_decide_eq_true in Hext.
    + intros [_ Hext]. f_equal. by apply bool_decide_eq_true.
  - split; [done|]. by intros [[=] _].
  - split; [done|]. by intros [[=] _].
Qed.

(** [is_file] is True of regular files only. *)
Lemma is_file_regular (fs : FS) (f : Path) :
  is_file fs f = Ok true → ∃ data st, fs !! f = Some (mkNode (Regular data) st).
Proof.
  unfold is_file, stat. destruct (stat_refuses fs f) as [e|].
  - by destruct (ignore_error e).
  - destruct (fs !! f) as [[[data|listable] st]|]; try done. by eexists _, _.
Qed.

Lemma is_image_answers (fs : FS) (f : Path) :
  answers (is_image fs f) ↔ answers (is_file fs f).
Proof. unfold is_image. by destruct (is_file fs f) as [[|]|e]. Qed.

Lemma answers_Ok {A} (r : result A) : answers r ↔ ∃ a, r = Ok a.
Proof. destruct r; split; simpl; [by eexists| done | done | by intros [? ?]]. Qed.

(** The comprehension keeps the entries that satisfy the condition,
    when the condition raises on none. *)
Lemma select_Ok (cond : Path → result bool) (entries kept : list Path) :
  select cond entries = Ok kept →
  Forall (λ f, answers (cond f)) entries ∧
  kept = filter (λ f, cond f = Ok true) entries.
Proof.
  revert kept. induction entries as [|f entries IH]; intros kept; cbn [select].
  - by intros [= <-].
  - destruct (cond f) as [keep|e] eqn:Hf; [|done].
    destruct (select cond entries) as [rest|e]; [|done].
    intros [= <-]. destruct (IH rest eq_refl) as [Hall ->]. split.
    + constructor; [by rewrite Hf|done].
    + rewrite filter_cons. destruct keep.
      * by rewrite decide_True.
      * rewrite decide_False; [done|]. by rewrite Hf.
Qed.

Lemma select_total (cond : Path → result bool) (entries : list Path) :
  Forall (λ f, answers (cond f)) entries → ∃ kept, select cond entries = Ok kept.
Proof.
  induction 1 as [|f entries Hf _ [rest IH]]; cbn [select]; [by eexists|].
  apply answers_Ok in Hf as [keep ->]. rewrite IH. by eexists.
Qed.

Lemma filter_is_image (fs : FS) (entries : list Path) :
  filter (λ f, is_image fs f = Ok true) entries = filter (image_entry fs) entries.
Proof. apply list_filter_iff. intros f. apply is_image_spec. Qed.

(** What [find_images] returns, when it returns. *)
Lemma find_images_spec (fs : FS) (folder : Path) (images : list Path) :
  find_images fs folder = Ok images →
  ∃ entries dates,
    iterdir fs folder = Ok entries ∧
    examinable fs entries ∧
    images ≡ₚ filter (image_entry fs) entries ∧
    (∀ f, f ∈ images ↔
          f ∈ entries ∧ is_file fs f = Ok true ∧ recognized (suffix f) = true) ∧
    Forall2 (has_key fs) dates images ∧
    StronglySorted Z.le dates ∧
    ∀ t, filter (has_key fs t) images
         = filter (has_key fs t) (filter (image_entry fs) entries).
Proof.
  unfold find_images.
  destruct (iterdir fs folder) as [entries|e]; [|done].
  destruct (select (is_image fs) entries) as [kept|e] eqn:Hselect; [|done].
  apply select_Ok in Hselect as [Hanswers ->]. rewrite filter_is_image.
  intros Hsorted. pose proof (sorted_Ok _ _ _ Hsorted) as Hdates.
  destruct (sorted_spec (filter (image_entry fs) entries) (get_creation_date fs) Hdates)
    as (images' & dates & Hsorted' & Hperm & Hkeys & Hasc & Hstable).
  rewrite Hsorted in Hsorted'. injection Hsorted' as <-.
  exists entries, dates. split_and!; [done| |done| |done|done|].
  - apply Forall_forall. intros f Hf. split.
    + rewrite Forall_forall in Hanswers. by apply is_image_answers, Hanswers.
    + intros Himage. rewrite Forall_forall in Hdates. apply answers_Ok, Hdates.
      by apply list_elem_of_filter.
  - intros f. rewrite Hperm, list_elem_of_filter. unfold image_entry. tauto.
  - intros t. apply (Hstable t).
Qed.

(** [find_images] returns when the folder can be listed and its
    entries examined. *)
Lemma find_images_returns (fs : FS) (folder : Path) (entries : list Path) :
  iterdir fs folder = Ok entries →
  examinable fs entries →
  ∃ images, find_images fs folder = Ok images.
Proof.
  intros Hentries Hexam. unfold find_images. rewrite Hentries.
  destruct (select_total (is_image fs) entries) as [kept Hselect].
  { eapply Forall_impl; [exact Hexam|]. intros f [Hf _]. by apply is_image_answers. }
  rewrite Hselect. apply select_Ok in Hselect as [_ ->]. rewrite filter_is_image.
  destruct (sorted_spec (filter (image_entry fs) entries) (get_creation_date fs))
    as (images & _ & -> & _); [|by eexists].
  apply Forall_forall. intros f [Himage Hf]%list_elem_of_filter.
  unfold examinable in Hexam. rewrite Forall_forall in Hexam.
  by apply answers_Ok, Hexam.
Qed.

(** C6.  For a directory that can be listed, [find_images] returns
    exactly when every entry of the listing can be examined: [is_file]
    raises on none, and the creation date of each image is one that
    [datetime] represents.  It then returns exactly the entries of the
    listing (nothing below them) that are regular files with a suffix
    that is, without regard to the case of the letters, one of .jpg,
    .jpeg, .png and .heic.  The result is in ascending order of the
    creation dates, and the entries with the same date are in the
    order of the listing. *)
Theorem find_images_filtered_sorted (fs : FS) (folder : Path) (entries : list Path) :
  iterdir fs folder = Ok entries →
  (examinable fs entries ↔ ∃ images, find_images fs folder = Ok images) ∧
  ∀ images,
    find_images fs folder = Ok images →
    ∃ dates,
      images ≡ₚ filter (image_entry fs) entries ∧
      (∀ f, f ∈ images ↔
            f ∈ entries ∧ is_file fs f = Ok true ∧ recognized (suffix f) = true) ∧
      Forall2 (has_key fs) dates images ∧
      StronglySorted Z.le dates ∧
      ∀ t, filter (has_key fs t) images
           = filter (has_key fs t) (filter (image_entry fs) entries).
Proof.
  intros Hentries. split.
  - split.
    + by apply find_images_returns.
    + intros [images Hfind].
      destruct (find_images_spec _ _ _ Hfind) as (entries' & _ & Hentries' & Hexam & _).
      congruence.
  - intros images Hfind.
    destruct (find_images_spec _ _ _ Hfind)
      as (entries' & dates & Hentries' & _ & Hrest).
    assert (entries' = entries) as -> by congruence.
    by exists dates.
Qed.

End FindImages.


(* ===================================================================== *)
(** * The program: validation, confirmation, execution *)
(* ===================================================================== *)

Section Main.
Context `{Platform}.

Lemma preview_loop_run (renames : list (Path * Path)) (w : World) :
  ∃ out, preview_loop renames w = (Ok tt, mkWorld (fs w) (stdin w) (stdout w ++ out)).
Proof.
  revert w. induction renames as [|[old new] renames IH]; intros w.
  - exists []. cbn. by rewrite app_nil_r, world_eta.
  - cbn [preview_loop]. unfold mbind, M_bind, bind, print.
    edestruct IH as [out ->]. cbn [fs stdin stdout].
    eexists (_ :: out). by rewrite <- app_assoc.
Qed.

(** The preview prints and does nothing else. *)
Lemma preview_renames_run (renames : list (Path * Path)) (w : World) :
  ∃ out, preview_renames renames w = (Ok tt, mkWorld (fs w) (stdin w) (stdout w ++ out)).
Proof.
  unfold preview_renames, mbind, M_bind, bind, print. cbn [fs stdin stdout].
  edestruct preview_loop_run as [out ->]. cbn [fs stdin stdout].
  eexists (_ :: _ :: _ :: out ++ [_; _; _]).
  f_equal. f_equal. rewrite <- !app_assoc. reflexivity.
Qed.

Lemma confirm_loop_junk (junk lines out : list string) :
  Forall not_an_answer junk →
  ∃ more, confirm_loop (junk ++ lines) out = confirm_loop lines (out ++ more).
Proof.
  intros Hjunk. revert out. induction Hjunk as [|line junk Hline _ IH]; intros out.
  - exists []. by rewrite app_nil_r.
  - cbn [app confirm_loop]. unfold not_an_answer in Hline.
    rewrite !bool_decide_eq_false_2 by set_solver.
    destruct (IH (out ++ [prompt; "Please enter 'y' or 'n'"])) as [more ->].
    eexists. by rewrite <- app_assoc.
Qed.

Lemma confirm_action_answer (w : World) (junk : list string) (answer : string)
    (rest : list string) (confirmed : bool) :
  stdin w = junk ++ answer :: rest →
  Forall not_an_answer junk →
  lower (strip answer) ∈ (if confirmed then ["y"; "yes"] else ["n"; "no"]) →
  ∃ out, confirm_action w = (Ok confirmed, mkWorld (fs w) rest (stdout w ++ out)).
Proof.
  intros Hin Hjunk Hanswer. unfold confirm_action. rewrite Hin.
  destruct (confirm_loop_junk junk (answer :: rest) (stdout w) Hjunk) as [more ->].
  cbn [confirm_loop]. destruct confirmed.
  - rewrite bool_decide_eq_true_2 by done.
    eexists. by rewrite <- app_assoc.
  - rewrite bool_decide_eq_false_2, bool_decide_eq_true_2; [|done|].
    + eexists. by rewrite <- app_assoc.
    + intros Hyes. cbv iota in Hanswer. set_unfold.
      destruct Hyes as [Hy|[Hy|[]]], Hanswer as [Hn|[Hn|[]]]; congruence.
Qed.

Lemma confirm_action_fs (w w' : World) (r : result bool) :
  confirm_action w = (r, w') → fs w' = fs w.
Proof.
  unfold confirm_action.
  destruct (confirm_loop (stdin w) (stdout w)) as [[r' lines] out].
  by intros [= _ <-].
Qed.

Lemma find_images_nonempty (fs : FS) (folder : Path) (image : Path) (images : list Path) :
  find_images fs folder = Ok (image :: images) →
  ∃ entry entries, iterdir fs folder = Ok (entry :: entries) ∧
                   exists_ fs folder = true ∧ is_dir fs folder = true.
Proof.
  intros Hfind.
  destruct (find_images_spec _ _ _ Hfind)
    as (entries & _ & Hentries & _ & Hperm & _).
  destruct entries as [|entry entries].
  { by apply Permutation_nil_r in Hperm. }
  exists entry, entries. split; [done|].
  unfold iterdir in Hentries. unfold exists_, is_dir.
  destruct (fs !! folder) as [[[data|[]] st]|]; done.
Qed.

Lemma is_dir_iterdir (fs : FS) (folder : Path) :
  is_dir fs folder = true →
  (∃ entries, iterdir fs folder = Ok entries) ∨
  iterdir fs folder = Raise (OSError PermissionError).
Proof.
  unfold is_dir, iterdir.
  destruct (fs !! folder) as [[[data|[]] st]|]; try done; eauto.
Qed.


(** C9.  When the validation passes and the answer to the prompt, after
    any number of lines that are no answer, is n or no (in any case,
    with any blanks around): [main] returns 0 and the file system is
    what it was. *)
Theorem main_declined (folder : Path) (w : World) (image : Path) (images : list Path)
    (junk : list string) (answer : string) (rest : list string) :
  find_images (fs w) folder = Ok (image :: images) →
  stdin w = junk ++ answer :: rest →
  Forall not_an_answer junk →
  lower (strip answer) ∈ ["n"; "no"] →
  ∃ out,
    main folder w = (Ok 0, mkWorld (fs w) rest (stdout w ++ out)) ∧
    last out = Some "Operation cancelled".
Proof.
  intros Himages Hin Hjunk Hanswer.
  destruct (find_images_nonempty _ _ _ _ Himages) as (entry & entries & Hentries & Hexists & Hdir).
  unfold main, mbind, M_bind, bind, lift_read, try_except.
  cbn [fs stdin stdout]. rewrite Hexists. cbn [negb].
  rewrite Hdir. cbn [negb]. rewrite Hentries. cbn [mret M_ret ret].
  rewrite Himages.
  destruct (preview_renames_run (generate_new_names (image :: images)) w) as [out1 ->].
  destruct (confirm_action_answer (mkWorld (fs w) (stdin w) (stdout w ++ out1))
              junk answer rest false Hin Hjunk Hanswer) as [out2 ->].
  cbn [negb print fs stdin stdout].
  exists (out1 ++ out2 ++ ["Operation cancelled"]). split.
  - by rewrite <- !app_assoc.
  - by rewrite !last_app.
Qed.

End Main.


Section Failure.
Context `{Platform}.

Lemma run_ops_fail (fs fs1 : FS) (pre post : list (Path * Path)) (src dst : Path) (e : exn) :
  run_ops fs pre = (fs1, None) →
  rename fs1 src dst = Raise e →
  run_ops fs (pre ++ (src, dst) :: post) = (fs1, Some (e, (src, dst))).
Proof.
  intros Hpre Hfail. rewrite run_ops_app, Hpre. simpl. by rewrite Hfail.
Qed.

Lemma run_ops_Some_OSError (ops : list (Path * Path)) (fs fs' : FS) (e : exn) (op : Path * Path) :
  run_ops fs ops = (fs', Some (e, op)) → ∃ err, e = OSError err.
Proof.
  revert fs. induction ops as [|[src dst] ops IH]; intros fs; simpl; [done|].
  destruct (rename fs src dst) as [fs1|e'] eqn:E; [apply IH|].
  intros [= <- <- <-]. by apply rename_Raise_OSError in E.
Qed.

(** [rename_files] fails where the sequence of its renames fails, with
    the same exception, and leaves the file system reached there. *)
Lemma rename_files_fail (renames : list (Path * Path)) (w : World)
    (fs' : FS) (e : exn) (op : Path * Path) :
  run_ops (fs w) (rename_ops renames) = (fs', Some (e, op)) →
  ∃ out, rename_files renames w = (Raise e, mkWorld fs' (stdin w) (stdout w ++ out)).
Proof.
  unfold rename_ops. rewrite run_ops_app, rename_files_run.
  destruct (run_ops (fs w) (staging renames)) as [fs1 [[e1 [old_path ?]]|]].
  - intros [= <- <- <-]. by eexists.
  - destruct (run_ops fs1 (committing renames)) as [fs2 [[e2 [? new_path]]|]]; [|done].
    intros [= <- <- <-]. by eexists.
Qed.

Lemma rename_files_Raise_OSError (renames : list (Path * Path)) (w w' : World) (e : exn) :
  rename_files renames w = (Raise e, w') → ∃ err, e = OSError err.
Proof.
  rewrite rename_files_run.
  destruct (run_ops (fs w) (staging renames)) as [fs1 [[e1 [old_path ?]]|]] eqn:E1.
  - intros [= <- _]. by apply run_ops_Some_OSError in E1.
  - destruct (run_ops fs1 (committing renames)) as [fs2 [[e2 [? new_path]]|]] eqn:E2; [|done].
    intros [= <- _]. by apply run_ops_Some_OSError in E2.
Qed.

(** C5.  If a rename of [rename_files], of the first or of the second
    pass, raises an error of the operating system after the renames
    [pre] were made, then [rename_files] raises that same error without
    making any of the renames [post] that were to follow, and the file
    system is the one that [pre] produced: what was staged stays at its
    temporary name, what was committed stays at its final name.  And
    when [main] has reached [rename_files] and it raises, [main]
    returns 1 and leaves that file system. *)
Theorem rename_failure_aborts :
  (∀ (renames : list (Path * Path)) (w : World) (pre post : list (Path * Path))
     (src dst : Path) (fs1 : FS) (e : exn),
     rename_ops renames = pre ++ (src, dst) :: post →
     run_ops (fs w) pre = (fs1, None) →
     rename fs1 src dst = Raise e →
     (∃ err, e = OSError err) ∧
     ∃ out, rename_files renames w
            = (Raise e, mkWorld fs1 (stdin w) (stdout w ++ out))) ∧
  (∀ (folder : Path) (w wc w' : World) (image : Path) (images : list Path) (e : exn),
     find_images (fs w) folder = Ok (image :: images) →
     (preview_renames (generate_new_names (image :: images)) ;; confirm_action) w
     = (Ok true, wc) →
     rename_files (generate_new_names (image :: images)) wc = (Raise e, w') →
     ∃ out, main folder w = (Ok 1, mkWorld (fs w') (stdin w') (stdout w' ++ out))).
Proof.
  split.
  - intros renames w pre post src dst fs1 e Hops Hpre Hfail.
    split; [by apply rename_Raise_OSError in Hfail|].
    apply (rename_files_fail _ _ _ _ (src, dst)).
    rewrite Hops. by apply run_ops_fail.
  - intros folder w wc w' image images e Himages Hconfirmed Hraise.
    destruct (find_images_nonempty _ _ _ _ Himages)
      as (entry & entries & Hentries & Hexists & Hdir).
    destruct (rename_files_Raise_OSError _ _ _ _ Hraise) as [err ->].
    unfold main, mbind, M_bind, bind, lift_read, try_except in Hconfirmed |- *.
    cbn [fs stdin stdout]. rewrite Hexists. cbn [negb].
    rewrite Hdir. cbn [negb]. rewrite Hentries. cbn [mret M_ret ret].
    rewrite Himages.
    destruct (preview_renames (generate_new_names (image :: images)) w)
      as [[[]|e1] w1]; [|done].
    rewrite Hconfirmed. cbn [negb]. rewrite Hraise.
    unfold print, ret. cbn [fs stdin stdout].
    eexists [_; _]. by rewrite <- app_assoc.
Qed.

End Failure.


(* ===================================================================== *)
(** * The properties on concrete runs *)
(* ===================================================================== *)

Import Examples.

(** The swap of 01.heic and 02.heic on a POSIX system: two renames are
    counted and the contents are exchanged. *)
Lemma rename_files_swap_witness :
  let w := world_of fs_swap [] in
  let r := @rename_files posix_platform plan_swap w in
  r.1 = Ok 2 ∧
  fs r.2 !! (photos // "02.heic") = Some (file "first" 5) ∧
  fs r.2 !! (photos // "01.heic") = Some (file "second" 3) ∧
  fs r.2 !! (photos // "notes.txt") = Some (file "note" 1).
Proof.
  intros w r.
  assert (@rename_files posix_platform plan_swap w = (Ok 2, r.2)) as Hrun.
  { vm_compute. reflexivity. }
  destruct (@rename_files_places_sources posix_platform plan_swap w r.2 2)
    as (_ & Hmoved & Hrest).
  - apply (bool_decide_unpack _). vm_compute. exact I.
  - apply Forall_forall. apply (bool_decide_unpack _). vm_compute. exact I.
  - exact Hrun.
  - split_and!.
    + vm_compute. reflexivity.
    + destruct (Hmoved (photos // "01.heic") (photos // "02.heic")) as [_ ->].
      * apply (bool_decide_unpack _). vm_compute. exact I.
      * vm_compute. reflexivity.
    + destruct (Hmoved (photos // "02.heic") (photos // "01.heic")) as [_ ->].
      * apply (bool_decide_unpack _). vm_compute. exact I.
      * vm_compute. reflexivity.
    + destruct (Hrest (photos // "notes.txt")) as [_ Hkept].
      { apply (bool_decide_unpack _). vm_compute. exact I. }
      rewrite Hkept.
      * vm_compute. reflexivity.
      * apply (bool_decide_unpack _). vm_compute. exact I.
      * apply (bool_decide_unpack _). vm_compute. exact I.
Defined.

(** C1, as stated, fails.  On a POSIX system, the plan a.jpg -> the
    temporary name of b.jpg, b.jpg -> c.jpg has targets that are no
    sources, in a directory without any temporary name; [rename_files]
    returns 2, but the second pass renames the staged a.jpg onto the
    staged b.jpg: the content of b.jpg is lost and that of a.jpg ends at
    c.jpg, not at its own target. *)
Lemma rename_files_onto_temp_counterexample :
  let w := world_of fs_ab [] in
  targets_permute_or_avoid_sources plan_onto_temp ∧
  NoDup plan_onto_temp.*2 ∧
  no_temp_file (fs w) ∧
  ¬ @places_sources posix_platform plan_onto_temp w.
Proof.
  intros w. split_and!.
  - right. apply Forall_forall. apply (bool_decide_unpack _). vm_compute. exact I.
  - apply (bool_decide_unpack _). vm_compute. exact I.
  - apply (bool_decide_unpack _). vm_compute. exact I.
  - intros Hclaim.
    destruct (Hclaim 2 (@rename_files posix_platform plan_onto_temp w).2) as [_ Hmoved].
    { vm_compute. reflexivity. }
    destruct (Hmoved (photos // "a.jpg") (temp_path_of (photos // "b.jpg"))) as [_ Hat].
    { apply (bool_decide_unpack _). vm_compute. exact I. }
    vm_compute in Hat. discriminate Hat.
Qed.

(** What the run of the counterexample leaves: one file, c.jpg, with the
    content of a.jpg. *)
Lemma rename_files_onto_temp_result :
  let r := @rename_files posix_platform plan_onto_temp (world_of fs_ab []) in
  r.1 = Ok 2 ∧ map_to_list (fs r.2) = [(photos // "c.jpg", file "A" 1)].
Proof. split; vm_compute; reflexivity. Qed.

(** On Windows the same plan stops in the second pass. *)
Lemma rename_files_onto_temp_windows :
  (@rename_files windows_platform plan_onto_temp (world_of fs_ab [])).1
  = Raise (OSError FileExistsError).
Proof. vm_compute. reflexivity. Qed.

(** Phase 1 of the swap meets no foreign file. *)
Lemma staging_never_collides_witness :
  @staging_is_safe posix_platform plan_swap (world_of fs_swap []).
Proof.
  apply (@staging_never_collides posix_platform).
  apply Forall_forall. apply (bool_decide_unpack _). vm_compute. exact I.
Defined.

(** C2, as stated, fails.  With a file already at the temporary name of
    a.jpg, staging a.jpg meets a file that the run did not stage; on a
    POSIX system the rename replaces it, and the run returns 1 with that
    file's content nowhere in the directory. *)
Lemma staging_onto_stale_counterexample :
  let w := world_of fs_stale [] in
  let r := @rename_files posix_platform plan_a w in
  ¬ @staging_is_safe posix_platform plan_a w ∧
  r.1 = Ok 1 ∧
  map_to_list (fs r.2) = [(photos // "01.jpg", file "A" 1)].
Proof.
  intros w r. split_and!.
  - intros Hsafe.
    apply (Hsafe [] (photos // "a.jpg") (photos // "01.jpg") [] w);
      [reflexivity|reflexivity|].
    split.
    + vm_compute. eexists. reflexivity.
    + apply (bool_decide_unpack _). vm_compute. exact I.
  - vm_compute. reflexivity.
  - vm_compute. reflexivity.
Qed.

(** The temporary paths of the swap are distinct. *)
Lemma temp_paths_distinct_witness :
  NoDup plan_swap.*1 ∧
  NoDup ((λ t : Path * Path * Path, t.1.2) <$> temp_renames plan_swap).
Proof.
  assert (NoDup plan_swap.*1) as Hnd.
  { apply (bool_decide_unpack _). vm_compute. exact I. }
  split; [exact Hnd|].
  exact (proj1 (temp_paths_distinct plan_swap Hnd)).
Defined.

(** Fourteen images are numbered 01 to 14. *)
Lemma target_number_padded_witness :
  stem <$> (generate_new_names fourteen).*2 =
  ["01"; "02"; "03"; "04"; "05"; "06"; "07"; "08"; "09"; "10"; "11"; "12"; "13"; "14"] ∧
  int_of_string (format_02d 14) = Some 14.
Proof.
  destruct (target_number_padded fourteen 14 (photos // "IMG_14.JPG"))
    as (_ & Hint & _ & _ & _ & _ & _ & H14).
  - lia.
  - vm_compute. reflexivity.
  - split; [|exact Hint]. apply H14. vm_compute. reflexivity.
Defined.

(** On a POSIX system without birth times, the date is the time of last
    modification. *)
Lemma get_creation_date_fallback_witness :
  @get_creation_date posix_platform fs_swap (photos // "01.heic") = Ok 5%Z.
Proof.
  destruct (@get_creation_date_fallback posix_platform fs_swap (photos // "01.heic")
              (mkStat None 5 5)) as (_ & _ & Hmtime).
  - vm_compute. reflexivity.
  - etrans; [apply Hmtime; [reflexivity|discriminate]|].
    vm_compute. reflexivity.
Defined.

(** Four photos named with suffixes in several cases: the targets are
    numbered in the order of the list and their suffixes are in lower
    case. *)
Lemma generate_new_names_plan_witness :
  let images := (λ n, photos // n) <$> ["IMG_1.HEIC"; "b.Heic"; "c.heic"; "d.JPG"] in
  (generate_new_names images).*2
  = (λ n, photos // n) <$> ["01.heic"; "02.heic"; "03.heic"; "04.jpg"] ∧
  Forall (λ r, eq_nocase (suffix r.2) (suffix r.1) = true ∧
               no_upper (name r.2) = true) (generate_new_names images).
Proof.
  intros images.
  pose proof (generate_new_names_plan images) as Hplan. cbv zeta in Hplan.
  destruct Hplan as (_ & _ & Htargets & _ & _ & _ & _ & _ & Hcase & _).
  split; [|exact Hcase].
  etrans; [exact Htargets|]. vm_compute. reflexivity.
Defined.

(** The photos of the folder are found whatever the case of their
    suffix, by date and not in the order of the listing: b.JPG, listed
    last, is the oldest.  c.png and a.Heic, of the same date, are in the
    order of the listing.  The folder album.jpg, the note and the film
    are not found. *)
Lemma find_images_witness :
  let listing := (λ n, photos // n) <$>
    ["notes.txt"; "album.jpg"; "c.png"; "e.jpeg"; "a.Heic"; "b.JPG"; "film.mp4"] in
  let images := (λ n, photos // n) <$> ["b.JPG"; "e.jpeg"; "c.png"; "a.Heic"] in
  @iterdir posix_platform fs_mixed photos = Ok listing ∧
  @examinable posix_platform fs_mixed listing ∧
  @find_images posix_platform fs_mixed photos = Ok images ∧
  ∃ dates,
    (∀ f, f ∈ images ↔
          f ∈ listing ∧ @is_file posix_platform fs_mixed f = Ok true ∧
          recognized (suffix f) = true) ∧
    Forall2 (@has_key posix_platform fs_mixed) dates images ∧
    StronglySorted Z.le dates ∧
    filter (@has_key posix_platform fs_mixed 2%Z) images
    = [photos // "c.png"; photos // "a.Heic"].
Proof.
  intros listing images.
  assert (@iterdir posix_platform fs_mixed photos = Ok listing) as Hlisting.
  { vm_compute. reflexivity. }
  assert (@find_images posix_platform fs_mixed photos = Ok images) as Hfind.
  { vm_compute. reflexivity. }
  destruct (@find_images_filtered_sorted posix_platform fs_mixed photos listing Hlisting)
    as [Hreturns Hspec].
  destruct (Hspec images Hfind) as (dates & _ & Hmem & Hdates & Hsorted & Hstable).
  split; [exact Hlisting|].
  split; [apply Hreturns; exists images; exact Hfind|].
  split; [exact Hfind|].
  exists dates. split; [exact Hmem|]. split; [exact Hdates|]. split; [exact Hsorted|].
  etrans; [apply Hstable|]. vm_compute. reflexivity.
Defined.

(** C6, as stated, fails.  On a POSIX system, a folder that may be read
    but not searched can be listed, but [stat] is refused on its
    entries: [is_file] raises [PermissionError] on the first of them and
    [find_images] returns nothing. *)
Lemma find_images_unsearchable_counterexample :
  let pf := unsearchable_platform photos in
  (∃ entries, @iterdir pf fs_mixed photos = Ok entries) ∧
  @find_images pf fs_mixed photos = Raise (OSError PermissionError) ∧
  ¬ @finds_images pf fs_mixed photos.
Proof.
  intros pf.
  assert (@iterdir pf fs_mixed photos = Ok (listdir_keys fs_mixed photos)) as Hlisting.
  { vm_compute. reflexivity. }
  assert (@find_images pf fs_mixed photos = Raise (OSError PermissionError)) as Hfind.
  { vm_compute. reflexivity. }
  split; [eexists; exact Hlisting|]. split; [exact Hfind|].
  intros Hclaim. destruct (Hclaim _ Hlisting) as (images & Hreturns & _).
  rewrite Hfind in Hreturns. discriminate Hreturns.
Qed.

(** A photo dated after the year 9999: the folder can be listed and
    searched, and [find_images] ends with the [ValueError] of
    [datetime.fromtimestamp]. *)
Lemma find_images_out_of_range :
  @find_images posix_platform fs_far photos = Raise ValueError ∧
  ¬ @finds_images posix_platform fs_far photos.
Proof.
  assert (@find_images posix_platform fs_far photos = Raise ValueError) as Hfind.
  { vm_compute. reflexivity. }
  split; [exact Hfind|].
  intros Hclaim.
  destruct (Hclaim (listdir_keys fs_far photos)) as (images & Hreturns & _).
  { vm_compute. reflexivity. }
  rewrite Hfind in Hreturns. discriminate Hreturns.
Qed.


(** The user answers "maybe", then " No ": exit code 0 and the same file
    system. *)
Lemma main_declined_witness :
  let w := world_of fs_swap ["maybe"; " No "; "y"] in
  ∃ out, @main posix_platform photos w = (Ok 0, mkWorld fs_swap ["y"] out).
Proof.
  intros w.
  destruct (@main_declined posix_platform photos w
              (photos // "02.heic") [photos // "01.heic"] ["maybe"] " No " ["y"])
    as (out & Hmain & _).
  - vm_compute. reflexivity.
  - reflexivity.
  - constructor; [|constructor]. apply (bool_decide_unpack _). vm_compute. exact I.
  - apply (bool_decide_unpack _). vm_compute. exact I.
  - exists ([] ++ out). exact Hmain.
Defined.

(** 01.heic may not be renamed.  Called on the swap, [rename_files]
    fails at once and changes nothing.  Called by [main], whose plan
    starts with 02.heic, it has staged 02.heic when it fails: [main]
    returns 1 and 02.heic is left at its temporary name. *)
Lemma rename_failure_aborts_witness :
  let pf := locking_platform "01.heic" in
  (∃ out, @rename_files pf plan_swap (world_of fs_swap [])
          = (Raise (OSError PermissionError), mkWorld fs_swap [] out)) ∧
  (∃ w', @main pf photos (world_of fs_swap ["y"]) = (Ok 1, w') ∧
         fs w' !! temp_path_of (photos // "02.heic") = Some (file "second" 3) ∧
         fs w' !! (photos // "02.heic") = None ∧
         fs w' !! (photos // "01.heic") = Some (file "first" 5)).
Proof.
  intros pf. destruct (@rename_failure_aborts pf) as [Hfiles Hmain]. split.
  - destruct (Hfiles plan_swap (world_of fs_swap []) []
                (tail (rename_ops plan_swap))
                (photos // "01.heic") (temp_path_of (photos // "01.heic"))
                fs_swap (OSError PermissionError))
      as [_ [out Hraise]].
    + reflexivity.
    + reflexivity.
    + vm_compute. reflexivity.
    + exists ([] ++ out). exact Hraise.
  - pose (plan := generate_new_names [photos // "02.heic"; photos // "01.heic"]).
    pose (wc := ((preview_renames plan ;; confirm_action) (world_of fs_swap ["y"])).2).
    pose (w' := (@rename_files pf plan wc).2).
    destruct (Hmain photos (world_of fs_swap ["y"]) wc w'
                (photos // "02.heic") [photos // "01.heic"] (OSError PermissionError))
      as [out Hexit].
    + vm_compute. reflexivity.
    + vm_compute. reflexivity.
    + vm_compute. reflexivity.
    + eexists. split; [exact Hexit|]. split_and!; vm_compute; reflexivity.
Defined.

(** ** Examples of the text functions *)

Example lower_example : lower ".HeIC" = ".heic".
Proof. reflexivity. Qed.

Example strip_example : strip "  Yes 	" = "Yes".
Proof. reflexivity. Qed.

Example format_02d_example :
  format_02d <$> [1; 9; 10; 14; 99; 100; 1234] = ["01"; "09"; "10"; "14"; "99"; "100"; "1234"].
Proof. reflexivity. Qed.

Example suffix_of_example :
  suffix_of <$> ["a.jpg"; ".bashrc"; "a."; "a.tar.GZ"; "noext"; "..x"; "a..jpg"]
  = [".jpg"; ""; ""; ".GZ"; ""; ".x"; ".jpg"].
Proof. reflexivity. Qed.

Example stem_of_example :
  stem_of <$> ["a.jpg"; ".bashrc"; "a."; "a.tar.GZ"; "noext"; "01.heic"]
  = ["a"; ".bashrc"; "a."; "a.tar"; "noext"; "01"].
Proof. reflexivity. Qed.

(** .HEIC, .Heic and .heic are recognized alike, and give .heic. *)
Example heic_any_case :
  (λ n, bool_decide (lower (suffix_of n) ∈ IMAGE_EXTENSIONS)) <$> ["a.HEIC"; "b.Heic"; "c.heic"; "d.txt"]
  = [true; true; true; false] ∧
  (generate_new_names (path_of <$> [["d"; "a.HEIC"]; ["d"; "b.Heic"]; ["d"; "c.heic"]])).*2
  = path_of <$> [["d"; "01.heic"]; ["d"; "02.heic"]; ["d"; "03.heic"]].
Proof. split; vm_compute; reflexivity. Qed.


(* ===================================================================== *)
(** * More on the renamer: what it leaves alone, when it succeeds *)
(* ===================================================================== *)

Section RenamerMore.
Context `{Platform}.

(** A run of renames, whatever its outcome, changes nothing at a path
    that is neither a source nor a destination. *)
Lemma run_ops_other (ops : list (Path * Path)) (fs fs' : FS)
    (failed : option (exn * (Path * Path))) (p : Path) :
  run_ops fs ops = (fs', failed) →
  p ∉ ops.*1 → p ∉ ops.*2 → fs' !! p = fs !! p.
Proof.
  revert fs. induction ops as [|[src dst] ops IH]; intros fs Hrun Hsrc Hdst.
  - by simplify_eq/=.
  - rewrite fmap_cons in Hsrc, Hdst.
    apply not_elem_of_cons in Hsrc as [Hps Hsrc].
    apply not_elem_of_cons in Hdst as [Hpd Hdst].
    cbn [run_ops] in Hrun.
    destruct (rename fs src dst) as [fs1|e] eqn:E.
    + apply rename_Ok_inv in E as (node & Hnode & ->).
      rewrite (IH _ Hrun Hsrc Hdst).
      by rewrite lookup_insert_ne, lookup_delete_ne.
    + by simplify_eq.
Qed.

(** A run that fails made the renames before the failing one. *)
Lemma run_ops_Some_inv (ops : list (Path * Path)) (fs fs' : FS) (e : exn) (op : Path * Path) :
  run_ops fs ops = (fs', Some (e, op)) →
  ∃ pre post,
    ops = pre ++ op :: post ∧
    run_ops fs pre = (fs', None) ∧
    rename fs' op.1 op.2 = Raise e.
Proof.
  revert fs. induction ops as [|[src dst] ops IH]; intros fs Hrun; [done|].
  cbn [run_ops] in Hrun.
  destruct (rename fs src dst) as [fs1|e'] eqn:E.
  - destruct (IH _ Hrun) as (pre & post & -> & Hpre & Hfail).
    exists ((src, dst) :: pre), post. split_and!; [done| |done].
    cbn [run_ops]. by rewrite E.
  - simplify_eq. by exists [], ops.
Qed.

(** Moving a node to a free path keeps the nodes of the file system. *)
Lemma rename_values (fs : FS) (src dst : Path) (node : Node) :
  fs !! src = Some node → fs !! dst = None →
  (map_to_list (<[dst := node]> (delete src fs))).*2 ≡ₚ (map_to_list fs).*2.
Proof.
  intros Hsrc Hdst.
  assert (delete src fs !! dst = None) as Hfree.
  { destruct (decide (src = dst)) as [->|Hne].
    - by rewrite lookup_delete_eq.
    - by rewrite lookup_delete_ne. }
  rewrite (map_to_list_insert _ _ _ Hfree).
  rewrite <- (insert_delete_id fs src node Hsrc) at 2.
  rewrite map_to_list_insert by apply lookup_delete_eq.
  done.
Qed.

(** Renames with present, distinct sources and free, distinct
    destinations, none of which is a source, all succeed where the
    operating system refuses nothing, on every platform. *)
Lemma run_ops_fresh (ops : list (Path * Path)) (fs : FS) :
  (∀ fs' a b, os_refuses fs' a b = None) →
  NoDup ops.*1 → NoDup ops.*2 →
  (∀ a b, a ∈ ops.*1 → b ∈ ops.*2 → a ≠ b) →
  (∀ a, a ∈ ops.*1 → is_Some (fs !! a)) →
  (∀ b, b ∈ ops.*2 → fs !! b = None) →
  ∃ fs', run_ops fs ops = (fs', None) ∧
         (map_to_list fs').*2 ≡ₚ (map_to_list fs).*2.
Proof.
  intros Hos. revert fs.
  induction ops as [|[src dst] ops IH]; intros fs Hsrcs Hdsts Hdisj Hpresent Hfree.
  - by exists fs.
  - rewrite fmap_cons in Hsrcs, Hdsts.
    apply NoDup_cons in Hsrcs as [Hsrc Hsrcs].
    apply NoDup_cons in Hdsts as [Hdst Hdsts].
    destruct (Hpresent src) as [node Hnode]; [set_solver|].
    assert (fs !! dst = None) as Hdst_free by (apply Hfree; set_solver).
    cbn [run_ops]. rewrite (rename_fresh fs src dst node) by done.
    destruct (IH (<[dst := node]> (delete src fs))) as (fs' & Hrun & Hvalues).
    + done.
    + done.
    + intros a b Ha Hb. apply Hdisj; set_solver.
    + intros a Ha.
      assert (a ≠ dst) by (apply Hdisj; set_solver).
      assert (a ≠ src) by (intros ->; done).
      rewrite lookup_insert_ne, lookup_delete_ne by done.
      apply Hpresent. set_solver.
    + intros b Hb.
      assert (b ≠ dst) by (intros ->; done).
      rewrite lookup_insert_ne by done.
      destruct (decide (b = src)) as [->|Hne].
      * apply lookup_delete_eq.
      * rewrite lookup_delete_ne by done. apply Hfree. set_solver.
    + exists fs'. split; [done|].
      rewrite Hvalues. by apply rename_values.
Qed.

Lemma plain_not_temp (p q : Path) : has_temp_prefix p = false → p ≠ temp_path_of q.
Proof. intros Hp ->. by rewrite has_temp_prefix_temp_path_of in Hp. Qed.

(** When [rename_files] succeeds, for a plan with distinct, present
    sources, distinct targets that are free or sources, no temporary
    name in the plan and free temporary paths. *)
Lemma rename_files_returns (renames : list (Path * Path)) (w : World) :
  (∀ fs' a b, os_refuses fs' a b = None) →
  NoDup renames.*1 → NoDup renames.*2 →
  (∀ p, p ∈ renames.*1 ++ renames.*2 → has_temp_prefix p = false) →
  (∀ old, old ∈ renames.*1 →
     is_Some (fs w !! old) ∧ fs w !! temp_path_of old = None) →
  (∀ new, new ∈ renames.*2 → fs w !! new = None ∨ new ∈ renames.*1) →
  ∃ fs',
    rename_files renames w
    = (Ok (length renames), mkWorld fs' (stdin w) (stdout w)) ∧
    (map_to_list fs').*2 ≡ₚ (map_to_list (fs w)).*2.
Proof.
  intros Hos Hsources Htargets Hplain Hpresent Hroom.
  assert (∀ a b, a ∈ (staging renames).*1 → b ∈ (staging renames).*2 → a ≠ b) as Hdisj1.
  { intros a b. rewrite staging_sources, staging_temps.
    intros Ha (q & -> & _)%list_elem_of_fmap. apply plain_not_temp, Hplain. set_solver. }
  assert (∀ a b, a ∈ (committing renames).*1 → b ∈ (committing renames).*2 → a ≠ b) as Hdisj2.
  { intros a b. rewrite committing_temps, committing_targets.
    intros (q & -> & _)%list_elem_of_fmap Hb.
    apply not_eq_sym, plain_not_temp, Hplain. set_solver. }
  destruct (run_ops_fresh (staging renames) (fs w)) as (fs1 & Hstage & Hvalues1);
    [done| | |done| | |].
  { by rewrite staging_sources. }
  { rewrite staging_temps. by apply temps_NoDup. }
  { intros a. rewrite staging_sources. intros Ha. by apply Hpresent. }
  { intros b. rewrite staging_temps. intros (q & -> & Hq)%list_elem_of_fmap.
    by apply Hpresent. }
  destruct (run_ops_lookup _ _ _ Hstage) as [Hstaged Hkept]; [|done|].
  { rewrite staging_temps. by apply temps_NoDup. }
  rewrite staging_sources, staging_temps in Hkept.
  destruct (run_ops_fresh (committing renames) fs1) as (fs2 & Hcommit & Hvalues2);
    [done| | |done| | |].
  { rewrite committing_temps. by apply temps_NoDup. }
  { by rewrite committing_targets. }
  { intros a. rewrite committing_temps. intros (q & -> & Hq)%list_elem_of_fmap.
    apply list_elem_of_fmap in Hq as ([old new] & -> & Hin). cbn [fst].
    destruct (Hstaged old (temp_path_of old)) as [Hsome ->]; [|done].
    by apply (list_elem_of_fmap_2 (λ r : Path * Path, (r.1, temp_path_of r.1)) _ (old, new)). }
  { intros b. rewrite committing_targets. intros Hb.
    rewrite Hkept.
    - destruct (decide (b ∈ renames.*1)); [done|].
      by destruct (Hroom b Hb).
    - intros (q & -> & _)%list_elem_of_fmap.
      assert (has_temp_prefix (temp_path_of q) = false) as Hbad
        by (apply Hplain; set_solver).
      by rewrite has_temp_prefix_temp_path_of in Hbad. }
  exists fs2. split.
  - by rewrite rename_files_run, Hstage, Hcommit.
  - by rewrite Hvalues2, Hvalues1.
Qed.

End RenamerMore.


Section RenamerGuarantees.
Context `{Platform}.

(** X1.  Where the operating system refuses nothing, on every platform:
    if the sources of the plan are distinct and present, its targets
    distinct, each target free or itself a source, no path of the plan
    named with the temporary prefix and every temporary path free, then
    [rename_files] returns the number of entries without printing, every
    source's node stands at its target, and the nodes of the file system
    are the same as before, none lost. *)
Theorem rename_files_succeeds (renames : list (Path * Path)) (w : World) :
  (∀ fs' a b, os_refuses fs' a b = None) →
  NoDup renames.*1 → NoDup renames.*2 →
  (∀ p, p ∈ renames.*1 ++ renames.*2 → has_temp_prefix p = false) →
  (∀ old, old ∈ renames.*1 →
     is_Some (fs w !! old) ∧ fs w !! temp_path_of old = None) →
  (∀ new, new ∈ renames.*2 → fs w !! new = None ∨ new ∈ renames.*1) →
  ∃ w',
    rename_files renames w = (Ok (length renames), w') ∧
    stdin w' = stdin w ∧ stdout w' = stdout w ∧
    (∀ old new, (old, new) ∈ renames → fs w' !! new = fs w !! old) ∧
    (map_to_list (fs w')).*2 ≡ₚ (map_to_list (fs w)).*2.
Proof.
  intros Hos Hsources Htargets Hplain Hpresent Hroom.
  destruct (rename_files_returns renames w) as (fs' & Hrun & Hvalues); [done..|].
  eexists. split; [exact Hrun|]. split_and!; [done..| |done].
  intros old new Hin.
  destruct (rename_files_lookup _ _ _ _ Htargets Hplain Hrun) as (_ & Hmoved & _).
  by destruct (Hmoved old new Hin).
Qed.

(** What [rename_files] leaves alone, in every outcome. *)
Lemma rename_files_other
    (renames : list (Path * Path)) (w w' : World) (r : result nat) (p : Path) :
  rename_files renames w = (r, w') →
  p ∉ renames.*1 → p ∉ temp_path_of <$> renames.*1 → p ∉ renames.*2 →
  fs w' !! p = fs w !! p ∧ stdin w' = stdin w.
Proof.
  intros Hrun Hsrc Htmp Htgt. rewrite rename_files_run in Hrun.
  destruct (run_ops (fs w) (staging renames)) as [fs1 failed1] eqn:Hstage.
  assert (fs1 !! p = fs w !! p) as H1.
  { apply (run_ops_other _ _ _ _ _ Hstage).
    - by rewrite staging_sources.
    - by rewrite staging_temps. }
  destruct failed1 as [[e [old ?]]|].
  { injection Hrun as <- <-. done. }
  destruct (run_ops fs1 (committing renames)) as [fs2 failed2] eqn:Hcommit.
  assert (fs2 !! p = fs1 !! p) as H2.
  { apply (run_ops_other _ _ _ _ _ Hcommit).
    - by rewrite committing_temps.
    - by rewrite committing_targets. }
  destruct failed2 as [[e [? new]]|]; injection Hrun as <- <-; cbn [fs stdin];
    by rewrite H2, H1.
Qed.

(** X2.  Whatever the plan and whether [rename_files] returns or
    raises, a path that is no source, no temporary path and no target
    of the plan keeps its node, and the console input is not read. *)
Theorem rename_files_leaves_other_paths
    (renames : list (Path * Path)) (w w' : World) (r : result nat) (p : Path) :
  rename_files renames w = (r, w') →
  p ∉ renames.*1 → p ∉ temp_path_of <$> renames.*1 → p ∉ renames.*2 →
  fs w' !! p = fs w !! p ∧ stdin w' = stdin w.
Proof. apply rename_files_other. Qed.

(** X3.  [rename_files] never returns a partial count: when it returns,
    the count is the number of entries and nothing was printed; when it
    raises, the exception is an [OSError] and exactly one line was
    printed, which names the source (first pass) or the target (second
    pass) of an entry of the plan. *)
Theorem rename_files_reports (renames : list (Path * Path)) (w w' : World) (r : result nat) :
  rename_files renames w = (r, w') →
  match r with
  | Ok count => count = length renames ∧ stdout w' = stdout w
  | Raise e =>
      ∃ err old new line,
        e = OSError err ∧ (old, new) ∈ renames ∧
        stdout w' = stdout w ++ [line] ∧
        ([line] = first_pass_error old e ∨ [line] = second_pass_error new e)
  end.
Proof.
  intros Hrun. rewrite rename_files_run in Hrun.
  destruct (run_ops (fs w) (staging renames)) as [fs1 [[e [old tmp]]|]] eqn:Hstage.
  - injection Hrun as <- <-.
    destruct (run_ops_Some_OSError _ _ _ _ _ Hstage) as [err ->].
    apply run_ops_Some_inv in Hstage as (pre & post & Hops & _ & _).
    assert ((old, tmp) ∈ staging renames) as Hin by (rewrite Hops; set_solver).
    apply list_elem_of_fmap in Hin as ([old' new] & [= -> ->] & Hin).
    exists err, old', new. destruct err; eexists; (split_and!; [done..|by left]).
  - destruct (run_ops fs1 (committing renames)) as [fs2 [[e [tmp new]]|]] eqn:Hcommit;
      injection Hrun as <- <-; [|done].
    destruct (run_ops_Some_OSError _ _ _ _ _ Hcommit) as [err ->].
    apply run_ops_Some_inv in Hcommit as (pre & post & Hops & _ & _).
    assert ((tmp, new) ∈ committing renames) as Hin by (rewrite Hops; set_solver).
    apply list_elem_of_fmap in Hin as ([old new'] & [= -> ->] & Hin).
    exists err, old, new'. destruct err; eexists; (split_and!; [done..|by right]).
Qed.

(** X4.  There is no rollback, and what the sources of the plan held
    is found again after a failure.  For a plan with distinct sources,
    distinct targets and no temporary name: when [rename_files] raises,
    the plan splits at the failing entry.
    If the first pass failed, the entries before it are at their
    temporary paths and every other source is where it was.  If the
    second pass failed, the entries before it are at their targets and
    every other entry is at its temporary path.  (Nothing is said of
    what a target that is no source held before the run: a rename of
    the second pass may have replaced it.) *)
Theorem rename_files_failure_state
    (renames : list (Path * Path)) (w w' : World) (e : exn) :
  NoDup renames.*1 → NoDup renames.*2 →
  (∀ p, p ∈ renames.*1 ++ renames.*2 → has_temp_prefix p = false) →
  rename_files renames w = (Raise e, w') →
  ∃ done old new rest,
    renames = done ++ (old, new) :: rest ∧
    ((rename (fs w') old (temp_path_of old) = Raise e ∧
      (∀ o n, (o, n) ∈ done →
         fs w' !! temp_path_of o = fs w !! o ∧ fs w' !! o = None) ∧
      (∀ o n, (o, n) ∈ (old, new) :: rest → fs w' !! o = fs w !! o))
     ∨
     (rename (fs w') (temp_path_of old) new = Raise e ∧
      (∀ o n, (o, n) ∈ done → fs w' !! n = fs w !! o) ∧
      (∀ o n, (o, n) ∈ (old, new) :: rest →
         fs w' !! temp_path_of o = fs w !! o))).
Proof.
  intros Hsources Htargets Hplain Hrun. rewrite rename_files_run in Hrun.
  destruct (run_ops (fs w) (staging renames)) as [fs1 [[e1 [old tmp]]|]] eqn:Hstage.
  - (* the first pass failed *)
    injection Hrun as <- <-. cbn [fs].
    apply run_ops_Some_inv in Hstage as (pre & post & Hops & Hpre & Hfail).
    unfold staging in Hops.
    apply fmap_app_inv in Hops as (done & rest' & -> & Hrest & ->).
    symmetry in Hrest.
    apply fmap_cons_inv in Hrest as ([old' new] & rest & [= -> ->] & -> & ->).
    cbn [fst snd] in *.
    change ((λ r : Path * Path, (r.1, temp_path_of r.1)) <$> done)
      with (staging done) in *.
    rewrite fmap_app, fmap_cons in Hsources. cbn [fst] in Hsources.
    apply NoDup_app in Hsources as (Hdone & Hapart & Hlater).
    destruct (run_ops_lookup _ _ _ Hpre) as [Hstaged Hkept].
    { rewrite (staging_temps done). by apply temps_NoDup. }
    { intros a b. rewrite (staging_sources done), (staging_temps done).
      intros Ha (q & -> & _)%list_elem_of_fmap. apply plain_not_temp, Hplain.
      rewrite !fmap_app. set_solver. }
    rewrite (staging_sources done), (staging_temps done) in Hkept.
    exists done, old', new, rest. split; [done|]. left. split_and!.
    + done.
    + intros o n Hin.
      assert (o ∈ done.*1) as Ho by (by apply (list_elem_of_fmap_2 fst _ (o, n))).
      split.
      * destruct (Hstaged o (temp_path_of o)) as [_ ->]; [|done].
        by apply (list_elem_of_fmap_2 (λ r : Path * Path, (r.1, temp_path_of r.1)) _ (o, n)).
      * rewrite Hkept.
        -- by rewrite decide_True.
        -- intros (q & Heq & _)%list_elem_of_fmap. revert Heq.
           apply plain_not_temp, Hplain. rewrite !fmap_app. set_solver.
    + intros o n Hin.
      assert (o ∈ ((old', new) :: rest).*1) as Ho
        by (by apply (list_elem_of_fmap_2 fst _ (o, n))).
      rewrite Hkept.
      * rewrite decide_False; [done|]. intros Hd. by apply (Hapart o Hd).
      * intros (q & Heq & _)%list_elem_of_fmap. revert Heq.
        apply plain_not_temp, Hplain. rewrite !fmap_app. set_solver.
  - (* the second pass failed *)
    destruct (run_ops fs1 (committing renames)) as [fs2 [[e2 [tmp new]]|]] eqn:Hcommit;
      [|done].
    injection Hrun as <- <-. cbn [fs].
    assert (∀ o n, (o, n) ∈ renames → fs1 !! temp_path_of o = fs w !! o) as Hstaged.
    { intros o n Hin.
      destruct (run_ops_lookup _ _ _ Hstage) as [Hst _].
      - rewrite staging_temps. by apply temps_NoDup.
      - intros a b. rewrite staging_sources, staging_temps.
        intros Ha (q & -> & _)%list_elem_of_fmap. apply plain_not_temp, Hplain. set_solver.
      - destruct (Hst o (temp_path_of o)) as [_ ->]; [|done].
        by apply (list_elem_of_fmap_2 (λ r : Path * Path, (r.1, temp_path_of r.1)) _ (o, n)). }
    apply run_ops_Some_inv in Hcommit as (pre & post & Hops & Hpre & Hfail).
    unfold committing in Hops.
    apply fmap_app_inv in Hops as (done & rest' & -> & Hrest & ->).
    symmetry in Hrest.
    apply fmap_cons_inv in Hrest as ([old new'] & rest & [= -> ->] & -> & ->).
    cbn [fst snd] in *.
    change ((λ r : Path * Path, (temp_path_of r.1, r.2)) <$> done)
      with (committing done) in *.
    pose proof Hsources as Hsources'.
    rewrite fmap_app, fmap_cons in Hsources. cbn [fst] in Hsources.
    apply NoDup_app in Hsources as (Hdone & Hapart & Hlater).
    rewrite fmap_app in Htargets. apply NoDup_app in Htargets as (Htdone & _ & _).
    destruct (run_ops_lookup _ _ _ Hpre) as [Hcommitted Hkept].
    { by rewrite (committing_targets done). }
    { intros a b. rewrite (committing_temps done), (committing_targets done).
      intros (q & -> & _)%list_elem_of_fmap Hb.
      apply not_eq_sym, plain_not_temp, Hplain. rewrite !fmap_app. set_solver. }
    rewrite (committing_temps done), (committing_targets done) in Hkept.
    exists done, old, new', rest. split; [done|]. right. split_and!.
    + done.
    + intros o n Hin.
      destruct (Hcommitted (temp_path_of o) n) as [_ ->].
      { by apply (list_elem_of_fmap_2 (λ r : Path * Path, (temp_path_of r.1, r.2)) _ (o, n)). }
      apply (Hstaged o n). set_solver.
    + intros o n Hin.
      assert (o ∈ ((old, new') :: rest).*1) as Ho
        by (by apply (list_elem_of_fmap_2 fst _ (o, n))).
      rewrite Hkept.
      * rewrite decide_False.
        -- apply (Hstaged o n). set_solver.
        -- intros (q & Heq%temp_path_of_inj & Hq)%list_elem_of_fmap. subst q.
           by apply (Hapart o Hq).
      * intros Hbad. assert (has_temp_prefix (temp_path_of o) = false) as Hno.
        { apply Hplain. rewrite !fmap_app. set_solver. }
        by rewrite has_temp_prefix_temp_path_of in Hno.
Qed.

(** X5.  Running the renamer on files that already have their final
    names does nothing: where the operating system refuses nothing, for
    a plan that maps each of its distinct, present sources to itself,
    with no temporary name and free temporary paths, [rename_files]
    returns the number of entries and the world is exactly as before. *)
Theorem rename_files_identity (renames : list (Path * Path)) (w : World) :
  (∀ fs' a b, os_refuses fs' a b = None) →
  renames.*2 = renames.*1 →
  NoDup renames.*1 →
  (∀ old, old ∈ renames.*1 →
     has_temp_prefix old = false ∧
     is_Some (fs w !! old) ∧ fs w !! temp_path_of old = None) →
  rename_files renames w = (Ok (length renames), w).
Proof.
  intros Hos Hsame Hsources Hok.
  assert (∀ p, p ∈ renames.*1 ++ renames.*2 → has_temp_prefix p = false) as Hplain.
  { intros p. rewrite Hsame. intros Hp. apply Hok. set_solver. }
  destruct (rename_files_returns renames w) as (fs' & Hrun & _); [done| |by rewrite Hsame|done| | |].
  { done. }
  { intros old Hold. by destruct (Hok old Hold) as (_ & ? & ?). }
  { intros new. rewrite Hsame. by right. }
  rewrite Hrun.
  assert (fs' = fs w) as ->; [|by rewrite world_eta].
  destruct (rename_files_lookup _ _ _ _ ltac:(by rewrite Hsame) Hplain Hrun)
    as (_ & Hmoved & Hrest).
  cbn [fs] in Hmoved, Hrest.
  apply map_eq. intros p.
  destruct (decide (p ∈ renames.*2)) as [Hin|Hnin].
  - apply list_elem_of_fmap in Hin as ([old new] & -> & Hin). cbn [snd].
    destruct (Hmoved old new Hin) as [_ ->].
    assert (new = old) as ->; [|done].
    apply list_elem_of_lookup in Hin as [i Hi].
    assert (renames.*2 !! i = renames.*1 !! i) as Hi' by (by rewrite Hsame).
    rewrite !list_lookup_fmap, Hi in Hi'. by simplify_eq/=.
  - rewrite (Hrest p Hnin).
    destruct (decide (p ∈ renames.*1 ∨ p ∈ temp_path_of <$> renames.*1))
      as [[Hp|Hp]|Hp]; [| |done].
    + by rewrite Hsame in Hnin.
    + apply list_elem_of_fmap in Hp as (q & -> & Hq).
      by destruct (Hok q Hq) as (_ & _ & ->).
Qed.

End RenamerGuarantees.


(* ===================================================================== *)
(** * More on the program: the console, the outcomes of main *)
(* ===================================================================== *)

Section Console.

(** The lines that [confirm_action] prints while it reads [junk] and
    then the answer, or the end of the console. *)
Lemma confirm_loop_cases (lines out : list string) :
  ∃ junk,
    Forall not_an_answer junk ∧
    ((confirm_loop lines out
      = (Raise EOFError, [],
         out ++ (junk ≫= λ _, [prompt; "Please enter 'y' or 'n'"]) ++ [prompt]) ∧
      lines = junk)
     ∨
     (∃ answer rest confirmed,
        lines = junk ++ answer :: rest ∧
        confirm_loop lines out
        = (Ok confirmed, rest,
           out ++ (junk ≫= λ _, [prompt; "Please enter 'y' or 'n'"]) ++ [prompt]) ∧
        lower (strip answer) ∈ (if confirmed then ["y"; "yes"] else ["n"; "no"]))).
Proof.
  revert out. induction lines as [|line lines IH]; intros out.
  - exists []. split; [constructor|]. by left.
  - cbn [confirm_loop].
    destruct (decide (lower (strip line) ∈ ["y"; "yes"])) as [Hyes|Hyes].
    { exists []. split; [constructor|]. right. exists line, lines, true.
      by rewrite bool_decide_eq_true_2. }
    rewrite (bool_decide_eq_false_2 _ Hyes).
    destruct (decide (lower (strip line) ∈ ["n"; "no"])) as [Hno|Hno].
    { exists []. split; [constructor|]. right. exists line, lines, false.
      by rewrite bool_decide_eq_true_2. }
    rewrite (bool_decide_eq_false_2 _ Hno).
    destruct (IH (out ++ [prompt; "Please enter 'y' or 'n'"])) as (junk & Hjunk & Hcases).
    exists (line :: junk). split.
    { constructor; [|done]. unfold not_an_answer. set_solver. }
    cbn [mbind list_bind app]. rewrite <- !app_assoc in Hcases. cbn [app] in Hcases |- *.
    destruct Hcases as [[-> ->]|(answer & rest & confirmed & -> & -> & Hanswer)].
    + by left.
    + right. by exists answer, rest, confirmed.
Qed.

(** The runs of [confirm_action]. *)
Lemma confirm_action_cases (w w' : World) (r : result bool) :
  confirm_action w = (r, w') →
  fs w' = fs w ∧
  ∃ junk,
    Forall not_an_answer junk ∧
    stdout w' = stdout w ++ (junk ≫= λ _, [prompt; "Please enter 'y' or 'n'"]) ++ [prompt] ∧
    ((r = Raise EOFError ∧ stdin w = junk ∧ stdin w' = [])
     ∨
     (∃ answer confirmed,
        r = Ok confirmed ∧
        stdin w = junk ++ answer :: stdin w' ∧
        lower (strip answer) ∈ (if confirmed then ["y"; "yes"] else ["n"; "no"]))).
Proof.
  unfold confirm_action. intros Hrun.
  destruct (confirm_loop_cases (stdin w) (stdout w)) as (junk & Hjunk & Hcases).
  destruct Hcases as [[Hloop Hlines]|(answer & rest & confirmed & Hlines & Hloop & Hanswer)];
    rewrite Hloop in Hrun; injection Hrun as <- <-; cbn [fs stdin stdout];
    (split; [done|]); exists junk; (split_and!; [done..|]).
  - by left.
  - right. by exists answer, confirmed.
Qed.

(** X6.  [confirm_action] reads the console up to the first line that
    is, once stripped and lowercased, y, yes, n or no, and returns True
    for the first two and False for the others; the lines after it stay
    on the console.  It prints the prompt once for every line it reads
    and the reminder once for every line that is no answer.  If the
    console ends before an answer, it raises [EOFError].  It never
    touches the file system. *)
Theorem confirm_action_protocol (w w' : World) (r : result bool) :
  confirm_action w = (r, w') →
  fs w' = fs w ∧
  ∃ junk,
    Forall not_an_answer junk ∧
    stdout w' = stdout w ++ (junk ≫= λ _, [prompt; "Please enter 'y' or 'n'"]) ++ [prompt] ∧
    ((r = Raise EOFError ∧ stdin w = junk ∧ stdin w' = [])
     ∨
     (∃ answer confirmed,
        r = Ok confirmed ∧
        stdin w = junk ++ answer :: stdin w' ∧
        lower (strip answer) ∈ (if confirmed then ["y"; "yes"] else ["n"; "no"]))).
Proof. apply confirm_action_cases. Qed.

End Console.

Section MainOutcomes.
Context `{Platform}.

Lemma preview_then_confirm (renames : list (Path * Path)) (w wc : World) (rc : result bool) :
  (preview_renames renames ;; confirm_action) w = (rc, wc) →
  ∃ wp, fs wp = fs w ∧ stdin wp = stdin w ∧ confirm_action wp = (rc, wc).
Proof.
  unfold mbind, M_bind, bind.
  destruct (preview_renames_run renames w) as [out ->].
  intros Hconfirm. eexists. by split_and!; [..|exact Hconfirm].
Qed.

(** The runs of [main]: the validation fails, or the discovery
    raises, or the plan is shown and the console decides. *)
Lemma main_cases (folder : Path) (w w' : World) (r : result nat) :
  main folder w = (r, w') →
  (validation_fails (fs w) folder ∧ r = Ok 1 ∧ fs w' = fs w ∧ stdin w' = stdin w)
  ∨
  (∃ e, find_images (fs w) folder = Raise e ∧ r = Raise e ∧ w' = w)
  ∨
  (∃ image images rc wc,
     find_images (fs w) folder = Ok (image :: images) ∧
     (preview_renames (generate_new_names (image :: images)) ;; confirm_action) w
     = (rc, wc) ∧
     match rc with
     | Raise e => r = Raise e ∧ w' = wc
     | Ok false => r = Ok 0 ∧ fs w' = fs wc ∧ stdin w' = stdin wc
     | Ok true =>
         ∃ rr wr,
           rename_files (generate_new_names (image :: images)) wc = (rr, wr) ∧
           fs w' = fs wr ∧ stdin w' = stdin wr ∧
           r = Ok (match rr with Ok _ => 0 | Raise _ => 1 end)
     end).
Proof.
  unfold main, mbind, M_bind, bind, lift_read, try_except.
  cbn [fs stdin stdout].
  destruct (exists_ (fs w) folder) eqn:Hexists; cbn [negb].
  2:{ intros [= <- <-]. left. unfold validation_fails. by split_and!; [left|..]. }
  destruct (is_dir (fs w) folder) eqn:Hdir; cbn [negb].
  2:{ intros [= <- <-]. left. unfold validation_fails. by split_and!; [right; left|..]. }
  destruct (is_dir_iterdir _ _ Hdir) as [[entries Hentries]| Hdenied].
  2:{ rewrite Hdenied. intros [= <- <-]. left. unfold validation_fails.
      by split_and!; [right; right; left|..]. }
  rewrite Hentries. cbn [mret M_ret ret].
  destruct entries as [|entry entries].
  { intros [= <- <-]. left. unfold validation_fails.
    by split_and!; [right; right; right; left|..]. }
  destruct (find_images (fs w) folder) as [[|image images]|e] eqn:Himages.
  { intros [= <- <-]. left. unfold validation_fails.
    by split_and!; [right; right; right; right|..]. }
  2:{ intros [= <- <-]. right; left. by exists e. }
  intros Hrun. right; right. exists image, images.
  destruct (preview_renames (generate_new_names (image :: images)) w)
    as [[[]|e1] w1] eqn:Hpreview.
  2:{ destruct (preview_renames_run (generate_new_names (image :: images)) w) as [out Hout].
      congruence. }
  destruct (confirm_action w1) as [[[|]|e2] wc] eqn:Hconfirm; cbn [negb] in Hrun.
  - exists (Ok true), wc. split; [reflexivity|]. split; [reflexivity|].
    destruct (rename_files (generate_new_names (image :: images)) wc)
      as [[count|e] wr] eqn:Hrename.
    + exists (Ok count), wr. by injection Hrun as <- <-.
    + destruct (rename_files_Raise_OSError _ _ _ _ Hrename) as [err ->].
      exists (Raise (OSError err)), wr. by injection Hrun as <- <-.
  - exists (Ok false), wc. split; [reflexivity|]. split; [reflexivity|].
    by injection Hrun as <- <-.
  - exists (Raise e2), wc. split; [reflexivity|]. split; [reflexivity|].
    by injection Hrun as <- <-.
Qed.

End MainOutcomes.


Section MainGuarantees.
Context `{Platform}.

Lemma answer_not_junk (answer : string) (confirmed : bool) :
  lower (strip answer) ∈ (if confirmed then ["y"; "yes"] else ["n"; "no"]) →
  ¬ not_an_answer answer.
Proof. unfold not_an_answer. destruct confirmed; set_solver. Qed.

(** X7.  [main] returns 0 or 1 and nothing else.  When an exception
    leaves [main], no file has been renamed.  When moreover the
    discovery returns on the folder, that exception is the [EOFError]
    of a console that ends before any answer, all of which has been
    read: an error of a rename never leaves [main]. *)
Theorem main_outcomes (folder : Path) (w w' : World) (r : result nat) :
  main folder w = (r, w') →
  match r with
  | Ok code => code = 0 ∨ code = 1
  | Raise e =>
      fs w' = fs w ∧
      (∀ images, find_images (fs w) folder = Ok images →
         e = EOFError ∧ Forall not_an_answer (stdin w) ∧ stdin w' = [])
  end.
Proof.
  intros [(_ & -> & _)|[(e & Hraise & -> & ->)
                       |(image & images & rc & wc & _ & Hconfirm & Hrc)]]%main_cases.
  { by right. }
  { split; [done|]. intros images Himages. congruence. }
  apply preview_then_confirm in Hconfirm as (wp & Hfs & Hin & Hconfirm).
  apply confirm_action_cases in Hconfirm as (Hfsc & junk & Hjunk & _ & Hcases).
  destruct Hcases as [(-> & Hlines & Hrest)|(answer & confirmed & -> & _ & _)].
  - destruct Hrc as [-> ->]. split; [congruence|]. intros _ _.
    split_and!; [done|congruence|done].
  - destruct confirmed.
    + destruct Hrc as (rr & wr & _ & _ & _ & ->). destruct rr; [by left|by right].
    + destruct Hrc as (-> & _). by left.
Qed.

(** X8.  [main] renames nothing without an explicit yes: if no line of
    the console is y or yes (once stripped and lowercased), the file
    system after [main] is the one before, whatever the outcome. *)
Theorem main_needs_yes (folder : Path) (w w' : World) (r : result nat) :
  Forall (λ line, lower (strip line) ∉ ["y"; "yes"]) (stdin w) →
  main folder w = (r, w') →
  fs w' = fs w.
Proof.
  intros Hnoyes [(_ & _ & Hfs & _)|[(e & _ & _ & ->)
                                  |(image & images & rc & wc & _ & Hconfirm & Hrc)]]%main_cases;
    [done|done|].
  apply preview_then_confirm in Hconfirm as (wp & Hfs & Hin & Hconfirm).
  apply confirm_action_cases in Hconfirm as (Hfsc & junk & Hjunk & _ & Hcases).
  destruct Hcases as [(-> & Hlines & Hrest)|(answer & confirmed & -> & Hlines & Hanswer)].
  - destruct Hrc as [_ ->]. congruence.
  - destruct confirmed.
    + exfalso. rewrite <- Hin, Hlines in Hnoyes.
      apply Forall_app in Hnoyes as [_ Hnoyes].
      apply Forall_cons in Hnoyes as [Hno _]. done.
    + destruct Hrc as (_ & -> & _). congruence.
Qed.

(** X9.  Files that are not images of the plan are never touched:
    whatever the outcome of [main], a path that is no image found in the
    folder, no temporary path of one and no target of the plan keeps
    its node. *)
Theorem main_leaves_other_paths (folder : Path) (w w' : World) (r : result nat) (p : Path) :
  main folder w = (r, w') →
  (∀ images, find_images (fs w) folder = Ok images →
     (p ∉ images) ∧ (p ∉ temp_path_of <$> images) ∧
     (p ∉ (generate_new_names images).*2)) →
  fs w' !! p = fs w !! p.
Proof.
  intros [(_ & _ & -> & _)|[(e & _ & _ & ->)
                          |(image & images & rc & wc & Himages & Hconfirm & Hrc)]]%main_cases
    Hother; [done|done|].
  destruct (Hother _ Himages) as (Hsrc & Htmp & Htgt).
  apply preview_then_confirm in Hconfirm as (wp & Hfs & Hin & Hconfirm).
  apply confirm_action_fs in Hconfirm.
  destruct rc as [[|]|e].
  - destruct Hrc as (rr & wr & Hrename & -> & _).
    destruct (rename_files_other _ _ _ _ p Hrename) as [-> _].
    + unfold generate_new_names. by rewrite generate_from_sources.
    + unfold generate_new_names. by rewrite generate_from_sources.
    + done.
    + congruence.
  - destruct Hrc as (_ & -> & _). congruence.
  - destruct Hrc as [_ ->]. congruence.
Qed.

(** X10.  When the validation passes and the console holds no answer,
    [main] does not return: the [EOFError] of [input] leaves it, after
    the preview and one prompt per line, with the file system as it
    was. *)
Theorem main_console_exhausted (folder : Path) (w : World) (image : Path) (images : list Path) :
  find_images (fs w) folder = Ok (image :: images) →
  Forall not_an_answer (stdin w) →
  ∃ out, main folder w = (Raise EOFError, mkWorld (fs w) [] (stdout w ++ out)).
Proof.
  intros Himages Hjunk.
  destruct (main folder w) as [r w'] eqn:Hmain.
  pose proof Hmain as [(Hfails & _)|[(e & Hraise & _)
                                   |(image' & images' & rc & wc & _ & Hconfirm & Hrc)]]%main_cases.
  { destruct (find_images_nonempty _ _ _ _ Himages) as (entry & entries & Hentries & Hexists & Hdir).
    destruct Hfails as [?|[?|[?|[?|?]]]]; congruence. }
  { congruence. }
  unfold mbind, M_bind, bind in Hconfirm.
  destruct (preview_renames_run (generate_new_names (image' :: images')) w) as [out1 Hpreview].
  rewrite Hpreview in Hconfirm.
  pose proof Hconfirm as (_ & junk & _ & Hout & Hcases)%confirm_action_cases.
  cbn [fs stdin stdout] in Hout, Hcases.
  destruct Hcases as [(-> & Hlines & Hrest)|(answer & confirmed & -> & Hlines & Hanswer)].
  - destruct Hrc as [-> ->]. apply confirm_action_fs in Hconfirm. cbn [fs] in Hconfirm.
    eexists. f_equal. rewrite <- (world_eta wc), Hconfirm, Hrest, Hout.
    by rewrite <- app_assoc.
  - exfalso. rewrite Hlines in Hjunk.
    apply Forall_app in Hjunk as [_ Hjunk].
    apply Forall_cons in Hjunk as [Hno _].
    by apply (answer_not_junk answer confirmed).
Qed.

End MainGuarantees.


Section EndToEnd.
Context `{Platform}.

Lemma is_digit_not_underscore (c : ascii) : is_digit c = true → c ≠ "_"%char.
Proof. intros Hd ->. vm_compute in Hd. discriminate Hd. Qed.

(** No target of a generated plan is named with the temporary prefix:
    its name starts with a digit. *)
Lemma new_path_plain (image : Path) (i : nat) :
  has_temp_prefix (parent image // (format_02d i +:+ lower (suffix image))) = false.
Proof.
  unfold has_temp_prefix, startswith. rewrite name_new_path.
  pose proof (format_02d_nonempty i) as Hne.
  pose proof (all_digits_format_02d i) as Hdigits.
  destruct (format_02d i) as [|c r]; [done|].
  cbn [all_digits] in Hdigits. apply andb_prop in Hdigits as [Hc _].
  apply is_digit_not_underscore in Hc.
  cbn [String.prefix append].
  destruct (ascii_dec "_" c) as [Heq|]; [by destruct Hc|reflexivity].
Qed.

Lemma generate_from_plain (i : nat) (images : list Path) (p : Path) :
  p ∈ (generate_from i images).*2 → has_temp_prefix p = false.
Proof.
  revert i. induction images as [|image images IH]; intros i; cbn [generate_from].
  - by intros ?%elem_of_nil.
  - rewrite fmap_cons. cbn [snd]. intros [->|Hin]%elem_of_cons.
    + apply new_path_plain.
    + by apply (IH (S i)).
Qed.

Lemma generate_from_lookup (i j : nat) (images : list Path) (image : Path) :
  images !! j = Some image →
  generate_from i images !! j
  = Some (image, parent image // (format_02d (i + j) +:+ lower (suffix image))).
Proof.
  revert i j. induction images as [|x images IH]; intros i j; [done|].
  destruct j as [|j]; cbn [generate_from].
  - intros [= ->]. by rewrite Nat.add_0_r.
  - intros Hj. rewrite Nat.add_succ_r. by apply (IH (S i) j).
Qed.

Lemma generate_from_NoDup (i : nat) (images : list Path) :
  NoDup (generate_from i images).*2.
Proof.
  apply (NoDup_fmap_1 stem). rewrite generate_from_stems. apply format_02d_seq_NoDup.
Qed.

(** X11.  The whole program, when nothing stands in its way.  Where the
    operating system refuses nothing, for a folder whose listing has no
    duplicate and holds at least one image, where no image is named with
    the temporary prefix, no temporary path is occupied and each target
    is free or is itself an image of the folder: once the user answers y
    or yes, [main] returns 0, the image at position [i] of the creation
    order stands at the target numbered [i + 1] with its lowercased
    suffix, every image name that is no target is free, every other path
    is as it was, no node is lost, and the last line printed tells the
    number of images. *)
Theorem main_renames_in_order (folder : Path) (w : World) (image : Path)
    (images : list Path) (junk : list string) (answer : string) (rest : list string) :
  (∀ fs' a b, os_refuses fs' a b = None) →
  NoDup (listdir (fs w) folder) →
  find_images (fs w) folder = Ok (image :: images) →
  (∀ f, f ∈ image :: images →
     has_temp_prefix f = false ∧ fs w !! temp_path_of f = None) →
  (∀ t, t ∈ (generate_new_names (image :: images)).*2 →
     fs w !! t = None ∨ t ∈ image :: images) →
  stdin w = junk ++ answer :: rest →
  Forall not_an_answer junk →
  lower (strip answer) ∈ ["y"; "yes"] →
  ∃ w',
    main folder w = (Ok 0, w') ∧
    stdin w' = rest ∧
    last (stdout w')
    = Some ("Success! Renamed " +:+ str_of_nat (S (length images)) +:+ " file(s)") ∧
    (∀ i f, (image :: images) !! i = Some f →
       fs w' !! (parent f // (format_02d (S i) +:+ lower (suffix f))) = fs w !! f) ∧
    (∀ p, p ∉ (generate_new_names (image :: images)).*2 →
       (p ∈ image :: images → fs w' !! p = None) ∧
       (p ∉ image :: images → fs w' !! p = fs w !! p)) ∧
    (map_to_list (fs w')).*2 ≡ₚ (map_to_list (fs w)).*2.
Proof.
  intros Hos Hlisting Himages Hplain_src Hroom Hin Hjunk Hanswer.
  set (imgs := image :: images) in *.
  set (plan := generate_new_names imgs) in *.
  assert (plan.*1 = imgs) as Hsrcs by apply generate_from_sources.
  destruct (find_images_nonempty _ _ _ _ Himages)
    as (entry & entries & Hentries & Hexists & Hdir).
  destruct (find_images_spec _ _ _ Himages)
    as (entries' & dates & Hentries' & _ & Hperm & Hmem & _).
  assert (entries' = entry :: entries) as -> by congruence.
  assert (entry :: entries = listdir (fs w) folder) as Hlist.
  { unfold iterdir in Hentries.
    destruct (fs w !! folder) as [[[data|[]] st]|]; by simplify_eq. }
  assert (NoDup imgs) as Hnodup.
  { rewrite Hperm. apply NoDup_filter. by rewrite Hlist. }
  assert (∀ p, p ∈ plan.*1 ++ plan.*2 → has_temp_prefix p = false) as Hplain.
  { intros p [Hp|Hp]%elem_of_app.
    - rewrite Hsrcs in Hp. by apply Hplain_src.
    - by apply (generate_from_plain 1 imgs). }
  (* the run up to the confirmation *)
  destruct (preview_renames_run plan w) as [out1 Hpreview].
  destruct (confirm_action_answer (mkWorld (fs w) (stdin w) (stdout w ++ out1))
              junk answer rest true Hin Hjunk Hanswer) as [out2 Hconfirm].
  cbn [fs stdout] in Hconfirm.
  set (wc := mkWorld (fs w) rest ((stdout w ++ out1) ++ out2)) in *.
  (* the renames *)
  destruct (rename_files_returns plan wc) as (fs' & Hrename & Hvalues).
  { done. }
  { by rewrite Hsrcs. }
  { apply generate_from_NoDup. }
  { done. }
  { intros old. rewrite Hsrcs. intros Hold. unfold wc. cbn [fs]. split.
    - apply Hmem in Hold as (_ & Hfile & _).
      apply is_file_regular in Hfile as (data & st & ->). by eexists.
    - by apply Hplain_src. }
  { intros new Hnew. rewrite Hsrcs. unfold wc. cbn [fs]. by apply Hroom. }
  unfold wc in Hrename, Hvalues. cbn [fs stdin stdout] in Hrename, Hvalues. fold wc in Hrename.
  destruct (rename_files_lookup _ _ _ _ (generate_from_NoDup 1 imgs) Hplain Hrename)
    as (_ & Hmoved & Hkept).
  cbn [fs] in Hmoved, Hkept.
  subst wc plan imgs. eexists. split_and!.
  - unfold main, mbind, M_bind, bind, lift_read, try_except.
    cbn [fs stdin stdout]. rewrite Hexists. cbn [negb].
    rewrite Hdir. cbn [negb]. rewrite Hentries. cbn [mret M_ret ret].
    rewrite Himages, Hpreview, Hconfirm. cbn [negb]. rewrite Hrename.
    unfold print. cbn [fs stdin stdout]. reflexivity.
  - done.
  - cbn [stdout]. rewrite last_snoc. do 3 f_equal.
    unfold generate_new_names.
    by rewrite <- (length_fmap fst), generate_from_sources.
  - intros i f Hi. cbn [fs].
    destruct (Hmoved f (parent f // (format_02d (S i) +:+ lower (suffix f)))) as [_ ->];
      [|done].
    apply list_elem_of_lookup. exists i.
    by apply (generate_from_lookup 1 i (image :: images) f).
  - intros p Hp. cbn [fs]. rewrite (Hkept p Hp), (generate_from_sources 1).
    cbn [fs]. split.
    + intros Himg. by rewrite decide_True by tauto.
    + intros Himg.
      destruct (decide (p ∈ image :: images ∨ p ∈ temp_path_of <$> image :: images))
        as [[?|Htmp]|?]; [done| |done].
      apply list_elem_of_fmap in Htmp as (q & -> & Hq).
      by destruct (Hplain_src q Hq) as [_ ->].
  - done.
Qed.

End EndToEnd.


Section PlanMore.

Lemma from_last_dot_tail (s t : string) :
  from_last_dot s = Some t → ∃ pre, s = pre +:+ t.
Proof.
  revert t. induction s as [|c s IH]; intros t; cbn [from_last_dot]; [done|].
  destruct (from_last_dot s) as [t'|].
  - intros [= <-]. destruct (IH t' eq_refl) as [pre ->]. by exists (String c pre).
  - destruct (Ascii.eqb c "."); [|done]. intros [= <-]. by exists "".
Qed.

(** A name is its stem followed by its suffix. *)
Lemma stem_suffix (n : string) : stem_of n +:+ suffix_of n = n.
Proof.
  assert (∃ pre, n = pre +:+ suffix_of n) as [pre Hpre].
  { unfold suffix_of. destruct n as [|c n]; [by exists ""|].
    destruct (from_last_dot n) as [t|] eqn:E.
    - destruct (String.length t <=? 1).
      + exists (String c n). by rewrite app_empty_r.
      + destruct (from_last_dot_tail _ _ E) as [pre ->]. by exists (String c pre).
    - exists (String c n). by rewrite app_empty_r. }
  unfold stem_of. set (sfx := suffix_of n) in *. clearbody sfx. subst n.
  rewrite length_app_s.
  replace (String.length pre + String.length sfx - String.length sfx)
    with (String.length pre) by lia.
  by rewrite substring_0_app.
Qed.

(** X13.  No target made by [generate_new_names] is named with the
    temporary prefix of [rename_files] (its name starts with a digit):
    a target is never the temporary path of any file. *)
Theorem generate_new_names_targets_plain (images : list Path) (p : Path) :
  p ∈ (generate_new_names images).*2 →
  has_temp_prefix p = false ∧ ∀ q, p ≠ temp_path_of q.
Proof.
  intros Hp%generate_from_plain. split; [done|].
  intros q ->. by rewrite has_temp_prefix_temp_path_of in Hp.
Qed.

(** X14.  Numbering is idempotent: images that already carry, in their
    order, the stems 01, 02, ... and a suffix in lower case, are mapped
    to themselves, so that a second run of the program plans no change
    of name. *)
Theorem generate_new_names_fixpoint (images : list Path) :
  (∀ i f, images !! i = Some f →
     stem f = format_02d (S i) ∧ lower (suffix f) = suffix f) →
  generate_new_names images = (λ f, (f, f)) <$> images.
Proof.
  unfold generate_new_names. intros H.
  assert (∀ k, (∀ i f, images !! i = Some f →
                  stem f = format_02d (k + i) ∧ lower (suffix f) = suffix f) →
               generate_from k images = (λ f, (f, f)) <$> images) as Hgen.
  { clear H. induction images as [|f images IH]; intros k H; [done|].
    cbn [generate_from fmap list_fmap]. f_equal.
    - destruct (H 0 f eq_refl) as [Hstem Hlow].
      rewrite Nat.add_0_r in Hstem. rewrite Hlow, <- Hstem.
      unfold stem, suffix. by rewrite stem_suffix, parent_name.
    - apply IH. intros i g Hg. rewrite Nat.add_succ_l, <- Nat.add_succ_r.
      by apply (H (S i)). }
  by apply Hgen.
Qed.

End PlanMore.


(* ===================================================================== *)
(** * Further concrete runs *)
(* ===================================================================== *)

(** The swap succeeds on a POSIX system and exchanges the contents. *)
Lemma rename_files_succeeds_witness :
  ∃ w', @rename_files posix_platform plan_swap (world_of fs_swap []) = (Ok 2, w') ∧
        fs w' !! (photos // "02.heic") = Some (file "first" 5) ∧
        fs w' !! (photos // "01.heic") = Some (file "second" 3).
Proof.
  destruct (@rename_files_succeeds posix_platform plan_swap (world_of fs_swap []))
    as (w' & Hrun & _ & _ & Hmoved & _).
  - intros fs' a b. reflexivity.
  - apply (bool_decide_unpack _). vm_compute. exact I.
  - apply (bool_decide_unpack _). vm_compute. exact I.
  - apply Forall_forall. apply (bool_decide_unpack _). vm_compute. exact I.
  - apply Forall_forall. apply (bool_decide_unpack _). vm_compute. exact I.
  - apply Forall_forall. apply (bool_decide_unpack _). vm_compute. exact I.
  - exists w'. split; [exact Hrun|]. split.
    + rewrite (Hmoved (photos // "01.heic") (photos // "02.heic")).
      * vm_compute. reflexivity.
      * apply (bool_decide_unpack _). vm_compute. exact I.
    + rewrite (Hmoved (photos // "02.heic") (photos // "01.heic")).
      * vm_compute. reflexivity.
      * apply (bool_decide_unpack _). vm_compute. exact I.
Defined.

(** 02.heic may not be renamed: the swap fails after it has staged
    01.heic, and the note is as it was. *)
Lemma rename_files_leaves_other_paths_witness :
  let w := world_of fs_swap [] in
  let r := @rename_files (locking_platform "02.heic") plan_swap w in
  r.1 = Raise (OSError PermissionError) ∧
  fs r.2 !! (photos // "notes.txt") = Some (file "note" 1).
Proof.
  intros w r. split; [vm_compute; reflexivity|].
  destruct (@rename_files_leaves_other_paths (locking_platform "02.heic")
              plan_swap w r.2 r.1 (photos // "notes.txt")) as [Hkept _].
  - apply surjective_pairing.
  - apply (bool_decide_unpack _). vm_compute. exact I.
  - apply (bool_decide_unpack _). vm_compute. exact I.
  - apply (bool_decide_unpack _). vm_compute. exact I.
  - rewrite Hkept. vm_compute. reflexivity.
Defined.

(** The same failing run prints one line, about an entry of the plan. *)
Lemma rename_files_reports_witness :
  let pf := locking_platform "02.heic" in
  let w := world_of fs_swap [] in
  let w' := (@rename_files pf plan_swap w).2 in
  ∃ err old new line,
    OSError PermissionError = OSError err ∧
    (old, new) ∈ plan_swap ∧
    stdout w' = stdout w ++ [line] ∧
    ([line] = @first_pass_error pf old (OSError PermissionError) ∨
     [line] = @second_pass_error pf new (OSError PermissionError)).
Proof.
  intros pf w w'.
  assert (@rename_files pf plan_swap w = (Raise (OSError PermissionError), w')) as Hrun.
  { vm_compute. reflexivity. }
  exact (@rename_files_reports pf plan_swap w w' _ Hrun).
Defined.

(** And it leaves 01.heic staged and 02.heic in place. *)
Lemma rename_files_failure_state_witness :
  let pf := locking_platform "02.heic" in
  let w := world_of fs_swap [] in
  let w' := (@rename_files pf plan_swap w).2 in
  let e := OSError PermissionError in
  ∃ done old new rest,
    plan_swap = done ++ (old, new) :: rest ∧
    ((@rename pf (fs w') old (temp_path_of old) = Raise e ∧
      (∀ o n, (o, n) ∈ done →
         fs w' !! temp_path_of o = fs w !! o ∧ fs w' !! o = None) ∧
      (∀ o n, (o, n) ∈ (old, new) :: rest → fs w' !! o = fs w !! o)) ∨
     (@rename pf (fs w') (temp_path_of old) new = Raise e ∧
      (∀ o n, (o, n) ∈ done → fs w' !! n = fs w !! o) ∧
      (∀ o n, (o, n) ∈ (old, new) :: rest →
         fs w' !! temp_path_of o = fs w !! o))).
Proof.
  intros pf w w' e.
  apply (@rename_files_failure_state pf plan_swap w w' e).
  - apply (bool_decide_unpack _). vm_compute. exact I.
  - apply (bool_decide_unpack _). vm_compute. exact I.
  - apply Forall_forall. apply (bool_decide_unpack _). vm_compute. exact I.
  - vm_compute. reflexivity.
Defined.

(** A plan that maps both photos to their own names changes nothing. *)
Lemma rename_files_identity_witness :
  let w := world_of fs_swap [] in
  @rename_files posix_platform
    [(photos // "01.heic", photos // "01.heic");
     (photos // "02.heic", photos // "02.heic")] w = (Ok 2, w).
Proof.
  intros w.
  apply (@rename_files_identity posix_platform
           [(photos // "01.heic", photos // "01.heic");
            (photos // "02.heic", photos // "02.heic")] w).
  - intros fs' a b. reflexivity.
  - reflexivity.
  - apply (bool_decide_unpack _). vm_compute. exact I.
  - apply Forall_forall. apply (bool_decide_unpack _). vm_compute. exact I.
Defined.

(** The user answers "maybe", then " Yes ": one reminder, two prompts,
    and the third line is left on the console. *)
Lemma confirm_action_protocol_witness :
  let w := world_of ∅ ["maybe"; " Yes "; "n"] in
  let w' := (confirm_action w).2 in
  fs w' = fs w ∧
  ∃ junk,
    Forall not_an_answer junk ∧
    stdout w' = stdout w ++ (junk ≫= λ _, [prompt; "Please enter 'y' or 'n'"]) ++ [prompt] ∧
    ((Ok true = Raise EOFError ∧ stdin w = junk ∧ stdin w' = []) ∨
     (∃ answer confirmed,
        Ok true = Ok confirmed ∧
        stdin w = junk ++ answer :: stdin w' ∧
        lower (strip answer) ∈ (if confirmed then ["y"; "yes"] else ["n"; "no"]))).
Proof.
  intros w w'.
  apply (confirm_action_protocol w w' (Ok true)).
  vm_compute. reflexivity.
Defined.

(** The console holds only "maybe": [main] ends with [EOFError], the
    line has been read and the photos are as they were. *)
Lemma main_outcomes_witness :
  let w := world_of fs_swap ["maybe"] in
  let r := @main posix_platform photos w in
  r.1 = Raise EOFError ∧ fs r.2 = fs w ∧ stdin r.2 = [].
Proof.
  intros w r.
  assert (@main posix_platform photos w = (Raise EOFError, r.2)) as Hrun.
  { vm_compute. reflexivity. }
  destruct (@main_outcomes posix_platform photos w r.2 (Raise EOFError) Hrun)
    as [Hfs Heof].
  destruct (Heof [photos // "02.heic"; photos // "01.heic"]) as (_ & _ & Hin).
  { vm_compute. reflexivity. }
  split; [vm_compute; reflexivity|]. split; [exact Hfs | exact Hin].
Defined.

(** In a folder that may be read but not searched, the [PermissionError]
    of [is_file] leaves [main], before the preview and with nothing
    renamed. *)
Lemma main_unsearchable :
  let w := world_of fs_swap ["y"] in
  @main (unsearchable_platform photos) photos w = (Raise (OSError PermissionError), w).
Proof. vm_compute. reflexivity. Qed.

(** Without a "y" on the console nothing is renamed. *)
Lemma main_needs_yes_witness :
  let w := world_of fs_swap ["maybe"; "no"] in
  fs (@main posix_platform photos w).2 = fs w.
Proof.
  intros w.
  apply (@main_needs_yes posix_platform photos w _ (@main posix_platform photos w).1).
  - apply (bool_decide_unpack _). vm_compute. exact I.
  - apply surjective_pairing.
Defined.

(** The note survives a confirmed run. *)
Lemma main_leaves_other_paths_witness :
  let w := world_of fs_swap ["y"] in
  fs (@main posix_platform photos w).2 !! (photos // "notes.txt")
  = Some (file "note" 1).
Proof.
  intros w.
  rewrite (@main_leaves_other_paths posix_platform photos w _
             (@main posix_platform photos w).1 (photos // "notes.txt")).
  - vm_compute. reflexivity.
  - apply surjective_pairing.
  - intros images Himages.
    assert (@find_images posix_platform (fs w) photos
            = Ok [photos // "02.heic"; photos // "01.heic"]) as Hfound.
    { vm_compute. reflexivity. }
    rewrite Hfound in Himages. injection Himages as <-.
    split; [|split]; apply (bool_decide_unpack _); vm_compute; exact I.
Defined.

(** Two lines that are no answer: [main] ends with [EOFError]. *)
Lemma main_console_exhausted_witness :
  let w := world_of fs_swap ["maybe"; ""] in
  ∃ out, @main posix_platform photos w
         = (Raise EOFError, mkWorld (fs w) [] (stdout w ++ out)).
Proof.
  intros w.
  apply (@main_console_exhausted posix_platform photos w
           (photos // "02.heic") [photos // "01.heic"]).
  - vm_compute. reflexivity.
  - apply (bool_decide_unpack _). vm_compute. exact I.
Defined.

(** A confirmed run on the two photos: the older one, 02.heic, becomes
    01.heic, and the line after the answer is left on the console. *)
Lemma main_renames_in_order_witness :
  let w := world_of fs_swap ["maybe"; " YES "; "n"] in
  ∃ w', @main posix_platform photos w = (Ok 0, w') ∧
        stdin w' = ["n"] ∧
        fs w' !! (photos // "01.heic") = Some (file "second" 3) ∧
        fs w' !! (photos // "02.heic") = Some (file "first" 5).
Proof.
  intros w.
  destruct (@main_renames_in_order posix_platform photos w
              (photos // "02.heic") [photos // "01.heic"] ["maybe"] " YES " ["n"])
    as (w' & Hrun & Hin & _ & Hmoved & _).
  - intros fs' a b. reflexivity.
  - apply (bool_decide_unpack _). vm_compute. exact I.
  - vm_compute. reflexivity.
  - apply Forall_forall. apply (bool_decide_unpack _). vm_compute. exact I.
  - apply Forall_forall. apply (bool_decide_unpack _). vm_compute. exact I.
  - reflexivity.
  - apply (bool_decide_unpack _). vm_compute. exact I.
  - apply (bool_decide_unpack _). vm_compute. exact I.
  - exists w'. split; [exact Hrun|]. split; [exact Hin|]. split.
    + pose proof (Hmoved 0 (photos // "02.heic") eq_refl) as H0.
      etrans; [exact H0|]. vm_compute. reflexivity.
    + pose proof (Hmoved 1 (photos // "01.heic") eq_refl) as H1.
      etrans; [exact H1|]. vm_compute. reflexivity.
Defined.

(** The fourteenth target is no temporary name. *)
Lemma generate_new_names_targets_plain_witness :
  has_temp_prefix (photos // "14.jpg") = false ∧
  ∀ q, photos // "14.jpg" ≠ temp_path_of q.
Proof.
  apply (generate_new_names_targets_plain fourteen).
  apply (bool_decide_unpack _). vm_compute. exact I.
Defined.

(** After the swap, the plan of a second run maps each photo to itself. *)
Lemma generate_new_names_fixpoint_witness :
  generate_new_names [photos // "01.heic"; photos // "02.heic"]
  = [(photos // "01.heic", photos // "01.heic");
     (photos // "02.heic", photos // "02.heic")].
Proof.
  apply (generate_new_names_fixpoint [photos // "01.heic"; photos // "02.heic"]).
  intros i f Hf. destruct i as [|[|i]].
  - injection Hf as <-. split; vm_compute; reflexivity.
  - injection Hf as <-. split; vm_compute; reflexivity.
  - discriminate Hf.
Defined.
